(** * strong-exporter: the response-to-domain transformation layer

    A shallow embedding of [src/api/client.ts] ([parseSet],
    [transformLogs], [fetchMeasurements], [fetchWorkoutLogs]) and of
    [src/transform.ts] ([toCSV]), with the properties of the
    specification stated and proved over it.

    Conventions of the embedding.
    - A TypeScript field of type [T | null | undefined] (or an optional
      field [f?: T]) is an [option T]: the source only ever inspects such
      fields through [??], [?.] and truthiness, which do not tell [null]
      from [undefined].
    - JavaScript numbers are kept abstract ([JsNumber]): the code only
      produces them with [parseFloat] / [parseInt] and only consumes them
      through string conversion.
    - A [Map<string, string>] is a [gmap string string]. *)

From Stdlib Require Import ZArith Ascii String DecimalString.
From stdpp Require Import base option list strings gmap.

Local Open Scope string_scope.

(** ** JavaScript primitives used by the sources *)

(** The double quote character (code 34). *)
Definition dquote : ascii := "034"%char.
Definition comma : ascii := ","%char.
Definition slash : ascii := "/"%char.

Definition DQ : string := String dquote "".

(** The builtins on numbers that the sources call. [parseInt10 s] is
    [parseInt(s, 10)]; [numberToString] is the conversion applied by
    [Array.prototype.join]. *)
Class JsNumber (number : Type) := {
  parseFloat : string -> number;
  parseInt10 : string -> number;
  numberToString : number -> string
}.

(** [x ?? d] *)
Definition nullish {A} (x : option A) (d : A) : A := default d x.
Infix "??" := nullish (at level 45, left associativity).

(** Truthiness of a [string | null | undefined]: only a non-empty string
    is truthy. Returns the string when it is. *)
Definition truthyString (v : option string) : option string :=
  match v with
  | Some s => if decide (s = "") then None else Some s
  | None => None
  end.

(** [s.split(sep)] for a one-character separator: never empty. *)
Fixpoint split (sep : ascii) (s : string) : list string :=
  match s with
  | EmptyString => [""]
  | String c s' =>
      if decide (c = sep) then "" :: split sep s'
      else match split sep s' with
           | h :: t => String c h :: t
           | [] => [String c ""]
           end
  end.

(** [arr.pop()] as an expression: the last element, if any. *)
Definition pop {A} (l : list A) : option A := last l.

(** [arr.join(sep)] on an array of strings. *)
Fixpoint join (sep : string) (l : list string) : string :=
  match l with
  | [] => ""
  | [x] => x
  | x :: rest => x +:+ sep +:+ join sep rest
  end.

(** [s.replace] with the global pattern matching one double quote and
    the replacement made of two: every double quote is doubled. *)
Fixpoint replaceQuotes (s : string) : string :=
  match s with
  | EmptyString => ""
  | String c s' =>
      if decide (c = dquote) then String dquote (String dquote (replaceQuotes s'))
      else String c (replaceQuotes s')
  end.

(** [String(n)] for a non-negative integer below 1e21. *)
Definition natToString (n : nat) : string :=
  NilZero.string_of_uint (Nat.to_uint n).

(** [String(z)] for an integer of moderate size. *)
Definition intToString (z : Z) : string :=
  NilZero.string_of_int (Z.to_int z).

(** ** Data model *)

(** *** Raw API records (client.ts, internal types for API response parsing) *)

Record Cell := mkCell {
  cellType : string;
  value : option string
}.

Record CellSet := mkCellSet {
  cells : list Cell;
  isCompleted : option bool
}.

Record MeasurementLink := mkMeasurementLink { href : option string }.
Record GroupLinks := mkGroupLinks { measurement : option MeasurementLink }.

Record CellSetGroup := mkCellSetGroup {
  _links : option GroupLinks;
  cellSets : list CellSet
}.

Record LocalizedName := mkLocalizedName {
  en : option string;
  custom : option string
}.

Record LogEmbedded := mkLogEmbedded { cellSetGroup : option (list CellSetGroup) }.

Module RawLog.
Record t := mk {
  id : string;
  name : option LocalizedName;
  logType : option string;
  startDate : option string;
  endDate : option string;
  timezoneId : option string;
  _embedded : option LogEmbedded
}.
End RawLog.

(** *** Domain records, as [parseSet], [transformLogs] and [toCSV] build
    and read them *)

Record WorkoutSet (number : Type) := mkWorkoutSet {
  weightKg : option number;
  reps : option number;
  rpe : option number;
  distance : option number;
  duration : option string
}.
Arguments mkWorkoutSet {number}.
Arguments weightKg {number}.
Arguments reps {number}.
Arguments rpe {number}.
Arguments distance {number}.
Arguments duration {number}.

Module WorkoutExercise.
Record t (number : Type) := mk {
  name : string;
  completedSets : list (WorkoutSet number);
  skippedSets : list (WorkoutSet number)
}.
Arguments mk {number}.
Arguments name {number}.
Arguments completedSets {number}.
Arguments skippedSets {number}.
End WorkoutExercise.

Module Workout.
Record t (number : Type) := mk {
  id : string;
  name : option string;
  startDate : option string;
  endDate : option string;
  timezone : option string;
  exercises : list (WorkoutExercise.t number)
}.
Arguments mk {number}.
Arguments id {number}.
Arguments name {number}.
Arguments startDate {number}.
Arguments endDate {number}.
Arguments timezone {number}.
Arguments exercises {number}.
End Workout.

Record ExportData (number : Type) := mkExportData {
  exportedAt : string;
  totalWorkouts : nat;
  workouts : list (Workout.t number)
}.
Arguments mkExportData {number}.
Arguments exportedAt {number}.
Arguments totalWorkouts {number}.
Arguments workouts {number}.

(** ** client.ts: parsing helpers *)

Definition WEIGHT_CELL_TYPES : gset string :=
  list_to_set ["OTHER_WEIGHT"; "DUMBBELL_WEIGHT"; "BARBELL_WEIGHT"; "WEIGHTED_BODYWEIGHT"].

Section Transform.
Context {number : Type} `{JsNumber number}.

(** The predicates passed to [find]: the cell type is [t], or is one of
    the weight types. *)
Definition hasType (t : string) (c : Cell) : bool := bool_decide (cellType c = t).
Definition isWeight (c : Cell) : bool := bool_decide (cellType c ∈ WEIGHT_CELL_TYPES).

Definition parseSet (cellSet : CellSet) : option (WorkoutSet number * option bool) :=
  let types := map cellType (cells cellSet) in
  if bool_decide ("REST_TIMER" ∈ types) || bool_decide ("NOTE" ∈ types) then None
  else
    let weightCell := find isWeight (cells cellSet) in
    let repsCell := find (hasType "REPS") (cells cellSet) in
    let rpeCell := find (hasType "RPE") (cells cellSet) in
    let distanceCell := find (hasType "DISTANCE") (cells cellSet) in
    let durationCell := find (hasType "DURATION") (cells cellSet) in
    Some
      ({| weightKg := parseFloat <$> truthyString (weightCell ≫= value);
          reps := parseInt10 <$> truthyString (repsCell ≫= value);
          rpe := parseFloat <$> truthyString (rpeCell ≫= value);
          distance := parseFloat <$> truthyString (distanceCell ≫= value);
          duration := durationCell ≫= value |},
       isCompleted cellSet).

(** The predicate of the first [filter] of [transformLogs]. *)
Definition isWorkoutLog (log : RawLog.t) : bool :=
  bool_decide (RawLog.logType log = Some "WORKOUT")
  || bool_decide (RawLog.logType log = Some "LOG").

(** [p.completed !== false] and [p.completed === false] *)
Definition notFalse (p : WorkoutSet number * option bool) : bool :=
  negb (bool_decide (p.2 = Some false)).
Definition isFalse (p : WorkoutSet number * option bool) : bool :=
  bool_decide (p.2 = Some false).

(** The body of the inner [map] of [transformLogs]: one cell-set group
    to one exercise. *)
Definition exerciseOfGroup (measurementMap : gmap string string) (group : CellSetGroup)
  : WorkoutExercise.t number :=
  let measurementHref := ((_links group ≫= measurement) ≫= href) ?? "" in
  let measurementId := pop (split slash measurementHref) ?? "" in
  let name := (measurementMap !! measurementId) ?? "Unknown" in
  let parsed := omap parseSet (cellSets group) in
  let completedSets := fst <$> List.filter notFalse parsed in
  let skippedSets := fst <$> List.filter isFalse parsed in
  WorkoutExercise.mk name completedSets skippedSets.

Definition hasSets (e : WorkoutExercise.t number) : bool :=
  bool_decide (0 < length (WorkoutExercise.completedSets e)
                   + length (WorkoutExercise.skippedSets e)).

(** The body of the outer [map] of [transformLogs]: one log to one
    workout. *)
Definition workoutOfLog (measurementMap : gmap string string) (log : RawLog.t)
  : Workout.t number :=
  let exercises :=
    List.filter hasSets
      (exerciseOfGroup measurementMap
         <$> ((RawLog._embedded log ≫= cellSetGroup) ?? [])) in
  Workout.mk
    (RawLog.id log)
    (match RawLog.name log ≫= en with
     | Some n => Some n
     | None => RawLog.name log ≫= custom
     end)
    (RawLog.startDate log)
    (RawLog.endDate log)
    (RawLog.timezoneId log)
    exercises.

Definition transformLogs (logs : list RawLog.t) (measurementMap : gmap string string)
  : list (Workout.t number) :=
  reverse (workoutOfLog measurementMap <$> List.filter isWorkoutLog logs).

End Transform.

(** ** transform.ts: the CSV serializer *)

Definition CSV_HEADER : string :=
  "date,workoutName,exerciseName,setNumber,weightKg,reps,rpe,distance,duration,status".

Definition newline : string := String "010"%char "".

Section CSV.
Context {number : Type} `{JsNumber number}.

(** The template literal of the two name columns: a double quote, the
    name with its double quotes doubled, a double quote. *)
Definition quoted (s : string) : string := DQ +:+ replaceQuotes s +:+ DQ.

(** A numeric column: [x ?? ""], converted to a string by [join]. *)
Definition numberField (x : option number) : string :=
  from_option numberToString "" x.

(** The array joined and pushed for one set, [i] being the index that
    [forEach] passes. *)
Definition csvColumns (workout : Workout.t number) (exercise : WorkoutExercise.t number)
    (i : nat) (set : WorkoutSet number) (status : string) : list string :=
  [ Workout.startDate workout ?? "";
    quoted (Workout.name workout ?? "");
    quoted (WorkoutExercise.name exercise);
    natToString (i + 1);
    numberField (weightKg set);
    numberField (reps set);
    numberField (rpe set);
    numberField (distance set);
    duration set ?? "";
    status ].

Definition csvRow (workout : Workout.t number) (exercise : WorkoutExercise.t number)
    (i : nat) (set : WorkoutSet number) (status : string) : string :=
  join "," (csvColumns workout exercise i set status).

(** [allSets] of one exercise and the rows its [forEach] pushes. *)
Definition allSets (exercise : WorkoutExercise.t number) : list (WorkoutSet number * string) :=
  ((fun s => (s, "completed")) <$> WorkoutExercise.completedSets exercise)
  ++ ((fun s => (s, "skipped")) <$> WorkoutExercise.skippedSets exercise).

Definition exerciseRows (workout : Workout.t number) (exercise : WorkoutExercise.t number)
  : list string :=
  imap (fun i p => csvRow workout exercise i p.1 p.2) (allSets exercise).

Definition csvLines (data : ExportData number) : list string :=
  CSV_HEADER ::
    (workout ← workouts data;
     exercise ← Workout.exercises workout;
     exerciseRows workout exercise).

Definition toCSV (data : ExportData number) : string :=
  join newline (csvLines data).

End CSV.

(** ** client.ts: errors, HTTP responses and effects *)

(** What the platform HTTP client can fail with: sending the request, or
    reading and decoding the body of a response. *)
Inductive HttpClientError :=
| RequestError (description : string)
| ResponseError (description : string).

(** [StrongApiError], with its optional [status] and [cause]. A cause is
    whatever was caught: a client error or an error of the service's own. *)
Inductive StrongApiError :=
| mkStrongApiError (message : string) (status : option Z) (cause : option Thrown)
with Thrown :=
| ThrownHttp (e : HttpClientError)
| ThrownApi (e : StrongApiError).

Definition message (e : StrongApiError) : string :=
  match e with mkStrongApiError m _ _ => m end.
Definition status (e : StrongApiError) : option Z :=
  match e with mkStrongApiError _ s _ => s end.
Definition cause (e : StrongApiError) : option Thrown :=
  match e with mkStrongApiError _ _ c => c end.

(** A request as [authedGet] builds it: the path resolved against the
    backend, the search parameters in the order they are set, and the
    bearer token. *)
Record Request := mkRequest {
  path : string;
  searchParams : list (string * string);
  bearer : string
}.

(** An effect over a world of type [W]: it may fail with an [E], and
    [None] stands for a loop that has not finished within its fuel. *)
Definition Eff (W E A : Type) : Type := W -> option ((E + A) * W).

Definition succeed {W E A} (a : A) : Eff W E A := fun w => Some (inr a, w).
Definition fail {W E A} (e : E) : Eff W E A := fun w => Some (inl e, w).
Definition diverge {W E A} : Eff W E A := fun _ => None.

Definition flatMap {W E A B} (k : A -> Eff W E B) (m : Eff W E A) : Eff W E B :=
  fun w =>
    match m w with
    | None => None
    | Some (inl e, w') => Some (inl e, w')
    | Some (inr a, w') => k a w'
    end.

#[export] Instance Eff_ret {W E} : MRet (Eff W E) := fun A => succeed.
#[export] Instance Eff_bind {W E} : MBind (Eff W E) := fun A B => flatMap.

(** [Effect.catchAll] with a handler that always fails anew. *)
Definition catchAll {W E E' A} (m : Eff W E A) (h : E -> E') : Eff W E' A :=
  fun w =>
    match m w with
    | None => None
    | Some (inl e, w') => Some (inl (h e), w')
    | Some (inr a, w') => Some (inr a, w')
    end.

(** Yielding an effect that fails with a client error where a wider error
    type is expected. *)
Definition widen {W A} (m : Eff W HttpClientError A) : Eff W Thrown A :=
  catchAll m ThrownHttp.

(** [yield* response.text], [yield* response.json]: reading the body does
    not send anything. *)
Definition fromEither {W E A} (r : E + A) : Eff W E A := fun w => Some (r, w).

Module MeasurementsPage.
Record Measurement := mkMeasurement {
  id : string;
  name : option LocalizedName
}.
Record Embedded := mkEmbedded { measurement : option (list Measurement) }.
(** [next] is of unknown type and only tested for truthiness. *)
Record Links := mkLinks { next : bool }.
Record t := mk {
  _embedded : option Embedded;
  _links : option Links
}.
End MeasurementsPage.

Module LogsPage.
Record ContinuationLink := mkContinuationLink { href : option string }.
Record Embedded := mkEmbedded { log : option (list RawLog.t) }.
Record Links := mkLinks { continuation : option ContinuationLink }.
Record t := mk {
  _embedded : option Embedded;
  _links : option Links
}.
End LogsPage.

Module Response.
Record t (Json : Type) := mk {
  status : Z;
  text : HttpClientError + string;
  json : HttpClientError + Json
}.
Arguments mk {Json}.
Arguments status {Json}.
Arguments text {Json}.
Arguments json {Json}.
End Response.

(** ** client.ts: the two paginated fetches *)

Section Client.
(** The world the client talks to, the decoded JSON values, and the
    platform functions the fetches rely on:
    - [execute] is [httpClient.execute];
    - [asMeasurementsPage] and [asLogsPage] are the two [json as ...]
      casts, which check nothing;
    - [continuationOf href] is
      [new URL(href, backend).searchParams.get(...)] for the
      continuation parameter, the link being taken to parse as a URL. *)
Context {World Json : Type}.
Variable execute : Request -> Eff World HttpClientError (Response.t Json).
Variable asMeasurementsPage : Json -> MeasurementsPage.t.
Variable asLogsPage : Json -> LogsPage.t.
Variable continuationOf : string -> option string.

Definition measurementsRequest (token baseUrl : string) (page : nat) : Request :=
  mkRequest baseUrl [("page", natToString page)] token.

(** The [for] loop over one page's measurements. *)
Definition setMeasurement (map : gmap string string) (m : MeasurementsPage.Measurement)
  : gmap string string :=
  let name :=
    match MeasurementsPage.name m ≫= custom with
    | Some n => n
    | None => (MeasurementsPage.name m ≫= en) ?? MeasurementsPage.id m
    end in
  <[MeasurementsPage.id m := name]> map.

Definition setMeasurements (map : gmap string string)
    (measurements : list MeasurementsPage.Measurement) : gmap string string :=
  foldl setMeasurement map measurements.

Definition pageMeasurements (data : MeasurementsPage.t) : list MeasurementsPage.Measurement :=
  (MeasurementsPage._embedded data ≫= MeasurementsPage.measurement) ?? [].

Definition hasNext (data : MeasurementsPage.t) : bool :=
  from_option MeasurementsPage.next false (MeasurementsPage._links data).

(** The [while (true)] loop of [fetchFromEndpoint], from page [page]
    with the shared [map] as it stands. *)
Fixpoint fetchFromEndpointLoop (fuel : nat) (token baseUrl : string) (page : nat)
    (map : gmap string string) : Eff World HttpClientError (gmap string string) :=
  match fuel with
  | O => diverge
  | S fuel =>
      response ← execute (measurementsRequest token baseUrl page);
      if decide (Response.status response ≠ 200%Z) then mret map
      else
        json ← fromEither (Response.json response);
        let data := asMeasurementsPage json in
        let measurements := pageMeasurements data in
        let map := setMeasurements map measurements in
        if negb (hasNext data) || bool_decide (length measurements = 0)
        then mret map
        else fetchFromEndpointLoop fuel token baseUrl (page + 1) map
  end.

Definition fetchFromEndpoint (fuel : nat) (token baseUrl : string)
    (map : gmap string string) : Eff World HttpClientError (gmap string string) :=
  fetchFromEndpointLoop fuel token baseUrl 0 map.

(** The handler of the [catchAll] of [fetchMeasurements]. *)
Definition measurementsFailure (error : HttpClientError) : StrongApiError :=
  mkStrongApiError "Failed to fetch measurements" None (Some (ThrownHttp error)).

Definition fetchMeasurements (fuel : nat) (token userId : string)
  : Eff World StrongApiError (gmap string string) :=
  catchAll
    (map ← fetchFromEndpoint fuel token "api/measurements" ∅;
     map ← fetchFromEndpoint fuel token ("api/users/" +:+ userId +:+ "/measurements") map;
     mret map)
    measurementsFailure.

(** Specification-side notion: starting at page [page] of [baseUrl] in
    world [w] with the map [map], the next [n] pages are served with
    status 200, a body that decodes, a next link and at least one
    measurement; [map'] is the map once they are set and [w'] the world
    after them. *)
Inductive pagesServed (token baseUrl : string) :
  nat -> nat -> gmap string string -> World -> gmap string string -> World -> Prop :=
| served_none page map w : pagesServed token baseUrl 0 page map w map w
| served_next n page map w response json w1 map' w' :
    execute (measurementsRequest token baseUrl page) w = Some (inr response, w1) →
    Response.status response = 200%Z →
    Response.json response = inr json →
    hasNext (asMeasurementsPage json) = true →
    pageMeasurements (asMeasurementsPage json) ≠ [] →
    pagesServed token baseUrl n (page + 1)
      (setMeasurements map (pageMeasurements (asMeasurementsPage json))) w1 map' w' →
    pagesServed token baseUrl (S n) page map w map' w'.

(** Specification-side notion: fetching [baseUrl] from page 0, page [n]
    is the first one answered with a status other than 200; [map'] is
    the map gathered from the pages before it and [w'] the world once
    that answer is received. *)
Definition stopsAt (token baseUrl : string) (n : nat) (map : gmap string string) (w : World)
    (map' : gmap string string) (w' : World) : Prop :=
  ∃ w1 response,
    pagesServed token baseUrl n 0 map w map' w1
    ∧ execute (measurementsRequest token baseUrl n) w1 = Some (inr response, w')
    ∧ Response.status response ≠ 200%Z.

Definition limit : nat := 200.

Definition logsRequest (token userId continuation : string) : Request :=
  mkRequest ("api/users/" +:+ userId)
    [("limit", natToString limit); ("continuation", continuation); ("include", "log")]
    token.

Definition pageLogs (data : LogsPage.t) : list RawLog.t :=
  (LogsPage._embedded data ≫= LogsPage.log) ?? [].

Definition pageNextHref (data : LogsPage.t) : option string :=
  (LogsPage._links data ≫= LogsPage.continuation) ≫= LogsPage.href.

(** The [while (true)] loop of [fetchWorkoutLogs]. *)
Fixpoint fetchWorkoutLogsLoop (fuel : nat) (token userId continuation : string)
    (logs : list RawLog.t) : Eff World Thrown (list RawLog.t) :=
  match fuel with
  | O => diverge
  | S fuel =>
      response ← widen (execute (logsRequest token userId continuation));
      if decide (Response.status response ≠ 200%Z) then
        text ← widen (fromEither (Response.text response));
        fail (ThrownApi
                (mkStrongApiError
                   ("Failed to fetch logs: " +:+ intToString (Response.status response)
                      +:+ " - " +:+ text)
                   (Some (Response.status response)) None))
      else
        json ← widen (fromEither (Response.json response));
        let data := asLogsPage json in
        let batch := pageLogs data in
        let logs := (logs ++ batch)%list in
        match truthyString (pageNextHref data) with
        | None => mret logs
        | Some nextHref =>
            if bool_decide (length batch = 0) then mret logs
            else
              let continuation := continuationOf nextHref ?? "" in
              if decide (continuation = "") then mret logs
              else fetchWorkoutLogsLoop fuel token userId continuation logs
        end
  end.

(** The handler of the [catchAll] of [fetchWorkoutLogs]. *)
Definition logsFailure (error : Thrown) : StrongApiError :=
  mkStrongApiError "Failed to fetch workout logs" None (Some error).

Definition fetchWorkoutLogs (fuel : nat) (token userId : string)
  : Eff World StrongApiError (list RawLog.t) :=
  catchAll
    (fetchWorkoutLogsLoop fuel token userId "" [])
    logsFailure.

(** Specification-side notion: from the continuation token
    [continuation] in world [w] with [logs] accumulated, the next [n]
    pages of logs are served with status 200, a body that decodes, a
    non-empty batch and a link carrying a non-empty token; [continuation']
    is the token of the last link, [logs'] the accumulated logs and [w']
    the world after them. *)
Inductive logPagesServed (token userId : string) :
  nat -> string -> list RawLog.t -> World -> string -> list RawLog.t -> World -> Prop :=
| logs_served_none continuation logs w :
    logPagesServed token userId 0 continuation logs w continuation logs w
| logs_served_next n continuation logs w response json w1 nextHref continuation' logs' w' :
    execute (logsRequest token userId continuation) w = Some (inr response, w1) →
    Response.status response = 200%Z →
    Response.json response = inr json →
    truthyString (pageNextHref (asLogsPage json)) = Some nextHref →
    pageLogs (asLogsPage json) ≠ [] →
    continuationOf nextHref ?? "" ≠ "" →
    logPagesServed token userId n (continuationOf nextHref ?? "")
      (logs ++ pageLogs (asLogsPage json))%list w1 continuation' logs' w' →
    logPagesServed token userId (S n) continuation logs w continuation' logs' w'.

End Client.

(** ** transform.ts: the date-range filter *)

(** A [Date] is its time value, in milliseconds since the epoch; an
    invalid date has the time value NaN, here [None]. *)
Definition Date : Type := option Z.

(** [a >= b] and [a <= b] on dates compare the time values, and are
    false as soon as one of them is NaN. *)
Definition dateGe (a b : Date) : bool :=
  match a, b with
  | Some x, Some y => (y <=? x)%Z
  | _, _ => false
  end.

Definition dateLe (a b : Date) : bool :=
  match a, b with
  | Some x, Some y => (x <=? y)%Z
  | _, _ => false
  end.

Section DateFilter.
Context {number : Type}.
(** [newDate s] is [new Date(s)]. *)
Variable newDate : string -> Date.

(** The callback of the [filter]. *)
Definition startsWithin (from to : Date) (w : Workout.t number) : bool :=
  match truthyString (Workout.startDate w) with
  | None => false
  | Some startDate =>
      let d := newDate startDate in
      dateGe d from && dateLe d to
  end.

Definition filterByDateRange (workouts : list (Workout.t number)) (from to : Date)
  : list (Workout.t number) :=
  List.filter (startsWithin from to) workouts.

End DateFilter.

(** ** index.ts: the pure parts of the export command *)

(** [s.endsWith(suffix)] *)
Fixpoint endsWith (s suffix : string) : bool :=
  bool_decide (s = suffix)
  || match s with
     | EmptyString => false
     | String _ s' => endsWith s' suffix
     end.

Definition exportsDir : string := "exports".

(** The path the export is written to: [output] is the value of the
    output option, [today] the date part of the current ISO timestamp. *)
Definition finalPath (output : option string) (extension today : string) : string :=
  match output with
  | Some value =>
      if endsWith value ("." +:+ extension) then value
      else value +:+ "." +:+ extension
  | None => exportsDir +:+ "/strong-export-" +:+ today +:+ "." +:+ extension
  end.

Section ExportCommand.
Context {number : Type}.

(** The two nested [reduce] calls that count the exported sets. *)
Definition totalSets (workouts : list (Workout.t number)) : nat :=
  foldl
    (fun sum w =>
       sum + foldl
               (fun s e =>
                  s + length (WorkoutExercise.completedSets e)
                    + length (WorkoutExercise.skippedSets e))
               0 (Workout.exercises w))
    0 workouts.

(** The export restricted to a date range: the spread of [raw] with the
    two fields replaced. *)
Definition restrictTo (newDate : string -> Date) (raw : ExportData number) (from to : Date)
  : ExportData number :=
  let filteredWorkouts := filterByDateRange newDate (workouts raw) from to in
  mkExportData (exportedAt raw) (length filteredWorkouts) filteredWorkouts.

End ExportCommand.

(** ** client.ts: login and the export service *)

Record Credentials := mkCredentials {
  usernameOrEmail : string;
  password : string
}.

Record AuthToken := mkAuthToken {
  accessToken : string;
  refreshToken : string;
  userId : string
}.

(** [StrongAuthError], with its optional [cause]. *)
Inductive StrongAuthError :=
| mkStrongAuthError (authMessage : string) (authCause : option AuthThrown)
with AuthThrown :=
| AuthThrownHttp (e : HttpClientError)
| AuthThrownAuth (e : StrongAuthError).

Definition authMessage (e : StrongAuthError) : string :=
  match e with mkStrongAuthError m _ => m end.
Definition authCause (e : StrongAuthError) : option AuthThrown :=
  match e with mkStrongAuthError _ c => c end.

(** The three fields the login reads from the body: each is [Some] when
    [typeof] gives string for it. *)
Record LoginBody := mkLoginBody {
  bodyAccessToken : option string;
  bodyRefreshToken : option string;
  bodyUserId : option string
}.

(** What the client sends: the authenticated GET of the fetches, or the
    POST of the credentials to [auth/login]. *)
Inductive HttpRequest :=
| Get (request : Request)
| PostLogin (credentials : Credentials).

(** An error of [exportWorkouts]: of one of its two kinds. *)
Inductive ExportError :=
| ExportAuthError (e : StrongAuthError)
| ExportApiError (e : StrongApiError).

Section Service.
(** [send] is [httpClient.execute] over both kinds of request,
    [asLoginBody] the cast of the login body to a record of unknowns
    followed by the three [typeof] tests, and [now] the current time as
    an ISO string. *)
Context {World Json number : Type} `{JsNumber number}.
Variable send : HttpRequest -> Eff World HttpClientError (Response.t Json).
Variable asLoginBody : Json -> LoginBody.
Variable asMeasurementsPage : Json -> MeasurementsPage.t.
Variable asLogsPage : Json -> LogsPage.t.
Variable continuationOf : string -> option string.
Variable now : World -> string.

Definition widenAuth {A} (m : Eff World HttpClientError A) : Eff World AuthThrown A :=
  catchAll m AuthThrownHttp.

(** The handler of the [catchAll] of [login]. *)
Definition loginFailure (error : AuthThrown) : StrongAuthError :=
  mkStrongAuthError
    (match error with
     | AuthThrownAuth e => authMessage e
     | AuthThrownHttp _ => "Authentication failed"
     end)
    (Some error).

Definition login (credentials : Credentials) : Eff World StrongAuthError AuthToken :=
  catchAll
    (response ← widenAuth (send (PostLogin credentials));
     if decide (Response.status response ≠ 200%Z) then
       text ← widenAuth (fromEither (Response.text response));
       fail (AuthThrownAuth
               (mkStrongAuthError
                  ("Authentication failed: " +:+ intToString (Response.status response)
                     +:+ " - " +:+ text)
                  None))
     else
       json ← widenAuth (fromEither (Response.json response));
       let data := asLoginBody json in
       match bodyAccessToken data, bodyRefreshToken data, bodyUserId data with
       | Some a, Some r, Some u => mret (mkAuthToken a r u)
       | _, _, _ =>
           fail (AuthThrownAuth (mkStrongAuthError "Unexpected login response shape" None))
       end)
    loginFailure.

(** Reading the clock changes nothing. *)
Definition currentTime {E} : Eff World E string := fun w => Some (inr (now w), w).

(** [Effect.all] on the two fetches, without options: one after the
    other, the second one not started when the first fails. *)
Definition exportWorkouts (fuel : nat) (credentials : Credentials)
  : Eff World ExportError (ExportData number) :=
  token ← catchAll (login credentials) ExportAuthError;
  measurementMap ←
    catchAll
      (fetchMeasurements (fun r => send (Get r)) asMeasurementsPage fuel
         (accessToken token) (userId token))
      ExportApiError;
  logs ←
    catchAll
      (fetchWorkoutLogs (fun r => send (Get r)) asLogsPage continuationOf fuel
         (accessToken token) (userId token))
      ExportApiError;
  let workouts := transformLogs logs measurementMap in
  exportedAt ← currentTime;
  mret (mkExportData exportedAt (length workouts) workouts).

End Service.

(** ** A concrete number type for examples

    Integers with a NaN: [parseDecimal] reads an optional sign and the
    longest run of decimal digits, as [parseInt(s, 10)] does on a string
    without leading white space, and as [parseFloat] does when the string
    consists of digits only. All examples below stay within such strings. *)

Inductive IntNumber := NaN | Int (z : Z).

Definition digitOf (c : ascii) : option Z :=
  let n := nat_of_ascii c in
  if (48 <=? n)%nat && (n <=? 57)%nat then Some (Z.of_nat (n - 48)) else None.

Fixpoint digitsPrefix (acc : option Z) (s : string) : option Z :=
  match s with
  | EmptyString => acc
  | String c s' =>
      match digitOf c with
      | Some d => digitsPrefix (Some (10 * (acc ?? 0) + d)%Z) s'
      | None => acc
      end
  end.

Definition parseDecimal (s : string) : IntNumber :=
  match s with
  | String "-" s' => from_option (fun z => Int (- z)) NaN (digitsPrefix None s')
  | String "+" s' => from_option Int NaN (digitsPrefix None s')
  | _ => from_option Int NaN (digitsPrefix None s)
  end.

Definition showIntNumber (n : IntNumber) : string :=
  match n with
  | NaN => "NaN"
  | Int z => intToString z
  end.

#[export] Instance IntNumber_JsNumber : JsNumber IntNumber := {
  parseFloat := parseDecimal;
  parseInt10 := parseDecimal;
  numberToString := showIntNumber
}.

(** The log of the specification's worked example. *)
Definition squatGroup (sets : list CellSet) : CellSetGroup :=
  mkCellSetGroup
    (Some (mkGroupLinks (Some (mkMeasurementLink (Some "/api/measurements/abc123")))))
    sets.

Definition set100x5 (flag : option bool) : CellSet :=
  mkCellSet [mkCell "BARBELL_WEIGHT" (Some "100"); mkCell "REPS" (Some "5")] flag.

Definition restTimerSet : CellSet :=
  mkCellSet [mkCell "REST_TIMER" (Some "60"); mkCell "REPS" (Some "5")] (Some true).

Definition sampleLog (id : string) (ty : string) (nm : option LocalizedName)
    (groups : list CellSetGroup) : RawLog.t :=
  RawLog.mk id nm (Some ty) (Some "2026-01-01T10:00:00Z") (Some "2026-01-01T11:00:00Z")
    None (Some (mkLogEmbedded (Some groups))).

Definition squatMap : gmap string string := {[ "abc123" := "Squat (Barbell)" ]}.

(** A scripted backend for examples: the world is the list of requests
    sent so far, and the reply depends on the request and on that list. *)
Inductive SampleJson :=
| JMeasurements (p : MeasurementsPage.t)
| JLogs (p : LogsPage.t).

Definition sampleAsMeasurementsPage (j : SampleJson) : MeasurementsPage.t :=
  match j with
  | JMeasurements p => p
  | JLogs _ => MeasurementsPage.mk None None
  end.

Definition sampleAsLogsPage (j : SampleJson) : LogsPage.t :=
  match j with
  | JLogs p => p
  | JMeasurements _ => LogsPage.mk None None
  end.

(** Reads the continuation parameter of a link whose only parameter it
    is: the text after the last equals sign. *)
Definition sampleContinuationOf (href : string) : option string :=
  match split "="%char href with
  | [_] => None
  | parts => pop parts
  end.

Definition scripted (reply : Request -> list Request -> HttpClientError + Response.t SampleJson)
    (req : Request) : Eff (list Request) HttpClientError (Response.t SampleJson) :=
  fun sent => Some (reply req sent, (sent ++ [req])%list).

Definition errorResponse (code : Z) (body : string) : Response.t SampleJson :=
  Response.mk code (inr body) (inl (ResponseError "not JSON")).

Definition okResponse (j : SampleJson) : Response.t SampleJson :=
  Response.mk 200 (inr "") (inr j).

(** Every request is answered 500. *)
Definition alwaysDown (req : Request) (sent : list Request)
  : HttpClientError + Response.t SampleJson :=
  inr (errorResponse 500 "boom").

Definition catalogPage (items : list (string * string)) (more : bool) : SampleJson :=
  JMeasurements
    (MeasurementsPage.mk
       (Some (MeasurementsPage.mkEmbedded
                (Some ((fun p => MeasurementsPage.mkMeasurement p.1
                                   (Some (mkLocalizedName (Some p.2) None))) <$> items))))
       (Some (MeasurementsPage.mkLinks more))).

(** The global catalog serves one page and then answers 503; the user
    catalog answers 404 at once. *)
Definition flakyCatalogs (req : Request) (sent : list Request)
  : HttpClientError + Response.t SampleJson :=
  if decide (path req = "api/measurements") then
    if decide (searchParams req = [("page", "0")])
    then inr (okResponse (catalogPage [("abc123", "Squat (Barbell)")] true))
    else inr (errorResponse 503 "busy")
  else inr (errorResponse 404 "none").

Definition logsPageOf (logs : list RawLog.t) (next : option string) : SampleJson :=
  JLogs
    (LogsPage.mk
       (Some (LogsPage.mkEmbedded (Some logs)))
       (Some (LogsPage.mkLinks (LogsPage.mkContinuationLink <$> (Some <$> next))))).

(** The first page of logs is served; the second one is answered 500. *)
Definition secondPageDown (req : Request) (sent : list Request)
  : HttpClientError + Response.t SampleJson :=
  if decide (searchParams req = [("limit", "200"); ("continuation", ""); ("include", "log")])
  then inr (okResponse
              (logsPageOf [sampleLog "log-1" "WORKOUT" None []]
                 (Some "/api/users/u1?continuation=tok2")))
  else inr (errorResponse 500 "boom").

(** Sample inputs of the worked examples. *)
Definition namedLog : RawLog.t :=
  sampleLog "log-1" "WORKOUT"
    (Some (mkLocalizedName (Some "Push Day") (Some "My Push Day")))
    [squatGroup [set100x5 (Some true)]].

Definition mixedCells : CellSet :=
  mkCellSet
    [mkCell "DUMBBELL_WEIGHT" (Some "22"); mkCell "REPS" (Some "");
     mkCell "BARBELL_WEIGHT" (Some "100"); mkCell "REPS" (Some "8")]
    None.

Definition workoutLog : RawLog.t :=
  sampleLog "log-1" "WORKOUT" None [squatGroup [set100x5 (Some true)]].
Definition measurementLog : RawLog.t :=
  sampleLog "log-2" "MEASUREMENT" None [squatGroup [set100x5 (Some true)]].
Definition restOnlyLog : RawLog.t :=
  sampleLog "log-3" "LOG" None [squatGroup [restTimerSet]].

Definition threeLogs : list RawLog.t := [workoutLog; measurementLog; restOnlyLog].

Definition mixedGroup : CellSetGroup :=
  squatGroup [set100x5 (Some true); restTimerSet; set100x5 (Some false); set100x5 None].

Definition mixedLog : RawLog.t := sampleLog "log-4" "WORKOUT" None [mixedGroup].

Definition set100x5Parsed : WorkoutSet IntNumber :=
  mkWorkoutSet (Some (Int 100)) (Some (Int 5)) None None None.

Definition pushDay : ExportData IntNumber :=
  mkExportData "2026-02-17T00:00:00Z" 1
    [Workout.mk "w1" (Some "Push Day") (Some "2026-02-15T10:00:00Z") None None
       [WorkoutExercise.mk "Bench Press (Barbell)"
          [mkWorkoutSet (Some (Int 80)) (Some (Int 5)) None None None] []]].

(** One workout with one set, whose name holds a newline. *)
Definition brokenName : ExportData IntNumber :=
  mkExportData "2026-02-17T00:00:00Z" 1
    [Workout.mk "w1" (Some ("Push" +:+ newline +:+ "Day")) (Some "2026-02-15T10:00:00Z")
       None None
       [WorkoutExercise.mk "Bench Press (Barbell)"
          [mkWorkoutSet (Some (Int 80)) (Some (Int 5)) None None None] []]].

Definition pushDayRow : string :=
  "2026-02-15T10:00:00Z," +:+ DQ +:+ "Push Day" +:+ DQ +:+ "," +:+ DQ
    +:+ "Bench Press (Barbell)" +:+ DQ +:+ ",1,80,5,,,,completed".

(** ** Specification-side notions

    These follow the words of the specification, to be compared with the
    definitions above, which follow the code. *)

(** [c] is the first cell of [cells] that satisfies [P]. *)
Definition firstMatching (P : Cell -> Prop) (cells : list Cell) (c : Cell) : Prop :=
  ∃ before after, cells = (before ++ c :: after)%list ∧ P c ∧ ∀ x, x ∈ before → ¬ P x.

(** A field is either parsed from the non-empty value of the first
    matching cell, or absent; it is absent exactly when there is no
    matching cell or the first one has no value or an empty one. *)
Definition parsedOrAbsent {number : Type} (parse : string -> number) (P : Cell -> Prop)
    (cells : list Cell) (field : option number) : Prop :=
  (∃ c v, firstMatching P cells c ∧ value c = Some v ∧ v ≠ "" ∧ field = Some (parse v))
  ∨ (field = None
     ∧ ((∀ c, c ∈ cells → ¬ P c)
        ∨ ∃ c, firstMatching P cells c ∧ (value c = None ∨ value c = Some ""))).

Definition isWeightType (c : Cell) : Prop :=
  cellType c = "OTHER_WEIGHT" ∨ cellType c = "DUMBBELL_WEIGHT"
  ∨ cellType c = "BARBELL_WEIGHT" ∨ cellType c = "WEIGHTED_BODYWEIGHT".

Definition hasMarker (cellSet : CellSet) : Prop :=
  ∃ c, c ∈ cells cellSet ∧ (cellType c = "REST_TIMER" ∨ cellType c = "NOTE").

Definition keptType (log : RawLog.t) : Prop :=
  RawLog.logType log = Some "WORKOUT" ∨ RawLog.logType log = Some "LOG".

(** The words of the specification on the sets of one group: decode
    every cell set in order, discard the ones that are no set, put a set
    whose flag is true or absent with the completed ones and a set whose
    flag is false with the skipped ones. *)
Inductive SetsPartition {number : Type} `{JsNumber number} :
  list CellSet -> list (WorkoutSet number) -> list (WorkoutSet number) -> Prop :=
| partition_nil : SetsPartition [] [] []
| partition_no_set cellSet rest completed skipped :
    parseSet cellSet = None →
    SetsPartition rest completed skipped →
    SetsPartition (cellSet :: rest) completed skipped
| partition_completed cellSet rest set flag completed skipped :
    parseSet cellSet = Some (set, flag) →
    flag = Some true ∨ flag = None →
    SetsPartition rest completed skipped →
    SetsPartition (cellSet :: rest) (set :: completed) skipped
| partition_skipped cellSet rest set completed skipped :
    parseSet cellSet = Some (set, Some false) →
    SetsPartition rest completed skipped →
    SetsPartition (cellSet :: rest) completed (set :: skipped).

(** The cell-set groups of a log, none when the log embeds nothing. *)
Definition groupsOf (log : RawLog.t) : list CellSetGroup :=
  match RawLog._embedded log with
  | Some e => match cellSetGroup e with Some gs => gs | None => [] end
  | None => []
  end.

(** The words of the specification on the two name columns: quoted when
    the name contains a comma or a double quote, bare otherwise. *)
Fixpoint containsChar (c : ascii) (s : string) : bool :=
  match s with
  | EmptyString => false
  | String c' s' => bool_decide (c' = c) || containsChar c s'
  end.

Definition specNameColumn (s : string) : string :=
  if containsChar comma s || containsChar dquote s
  then DQ +:+ replaceQuotes s +:+ DQ
  else s.

(** The inverse of doubling: every pair of double quotes becomes one. *)
Fixpoint undouble (s : string) : string :=
  match s with
  | EmptyString => ""
  | String c s' =>
      if decide (c = dquote) then
        match s' with
        | String c' s'' => if decide (c' = dquote) then String dquote (undouble s'')
                           else String c (undouble s')
        | EmptyString => String c ""
        end
      else String c (undouble s')
  end.

(** Reading back one quoted CSV field that starts a string: the body up
    to the closing double quote, a pair of double quotes standing for
    one, and what follows the field. *)
Fixpoint readQuotedBody (s : string) : option (string * string) :=
  match s with
  | EmptyString => None
  | String c s' =>
      if decide (c = dquote) then
        match s' with
        | String c' s'' =>
            if decide (c' = dquote)
            then (fun r => (String dquote r.1, r.2)) <$> readQuotedBody s''
            else Some ("", s')
        | EmptyString => Some ("", "")
        end
      else (fun r => (String c r.1, r.2)) <$> readQuotedBody s'
  end.

Definition readQuoted (s : string) : option (string * string) :=
  match s with
  | String c s' => if decide (c = dquote) then readQuotedBody s' else None
  | EmptyString => None
  end.

(** What follows a quoted field in a row: nothing, or text that does not
    start with a double quote. *)
Definition afterField (rest : string) : Prop :=
  match rest with
  | EmptyString => True
  | String c _ => c ≠ dquote
  end.

(** The display name a catalog entry is stored under: its custom name,
    else its primary name, else its id. *)
Definition measurementName (m : MeasurementsPage.Measurement) : string :=
  match MeasurementsPage.name m with
  | Some n =>
      match custom n with
      | Some c => c
      | None => match en n with Some e => e | None => MeasurementsPage.id m end
      end
  | None => MeasurementsPage.id m
  end.

(** More scripted backends. The global catalog has two pages, the user
    catalog one, which renames the entry abc123. *)
Definition twoCatalogs (req : Request) (sent : list Request)
  : HttpClientError + Response.t SampleJson :=
  if decide (path req = "api/measurements") then
    if decide (searchParams req = [("page", "0")])
    then inr (okResponse (catalogPage [("abc123", "Squat (Barbell)")] true))
    else inr (okResponse (catalogPage [("def456", "Bench Press (Barbell)")] false))
  else inr (okResponse (catalogPage [("abc123", "Back Squat")] false)).

(** The first page of the global catalog is served with status 200 and
    a body that is not JSON. *)
Definition garbledCatalog (req : Request) (sent : list Request)
  : HttpClientError + Response.t SampleJson :=
  inr (Response.mk 200 (inr "<html>") (inl (ResponseError "not JSON"))).

(** Two pages of logs, the second one without a continuation link. *)
Definition twoLogPages (req : Request) (sent : list Request)
  : HttpClientError + Response.t SampleJson :=
  if decide (searchParams req = [("limit", "200"); ("continuation", ""); ("include", "log")])
  then inr (okResponse
              (logsPageOf [sampleLog "log-1" "WORKOUT" None []]
                 (Some "/api/users/u1?continuation=tok2")))
  else inr (okResponse (logsPageOf [sampleLog "log-2" "LOG" None []] None)).

(** A scripted backend for the whole service: the world is the list of
    requests sent so far. *)
Inductive ServiceJson :=
| JLogin (body : LoginBody)
| JData (j : SampleJson).

Definition serviceAsLoginBody (j : ServiceJson) : LoginBody :=
  match j with
  | JLogin body => body
  | JData _ => mkLoginBody None None None
  end.

Definition serviceAsMeasurementsPage (j : ServiceJson) : MeasurementsPage.t :=
  match j with
  | JData d => sampleAsMeasurementsPage d
  | JLogin _ => MeasurementsPage.mk None None
  end.

Definition serviceAsLogsPage (j : ServiceJson) : LogsPage.t :=
  match j with
  | JData d => sampleAsLogsPage d
  | JLogin _ => LogsPage.mk None None
  end.

Definition scriptedService
    (reply : HttpRequest -> list HttpRequest -> HttpClientError + Response.t ServiceJson)
    (req : HttpRequest) : Eff (list HttpRequest) HttpClientError (Response.t ServiceJson) :=
  fun sent => Some (reply req sent, (sent ++ [req])%list).

Definition liftData (r : HttpClientError + Response.t SampleJson)
  : HttpClientError + Response.t ServiceJson :=
  match r with
  | inl e => inl e
  | inr response =>
      inr (Response.mk (Response.status response) (Response.text response)
             (match Response.json response with
              | inl e => inl e
              | inr j => inr (JData j)
              end))
  end.

(** The login is accepted for the password hunter2 and refused with 401
    otherwise; the catalogs are those of [twoCatalogs] and the logs are
    one page made of [threeLogs]. *)
Definition sampleService (req : HttpRequest) (sent : list HttpRequest)
  : HttpClientError + Response.t ServiceJson :=
  match req with
  | PostLogin credentials =>
      if decide (password credentials = "hunter2")
      then inr (Response.mk 200 (inr "")
                  (inr (JLogin (mkLoginBody (Some "acc") (Some "ref") (Some "u1")))))
      else inr (Response.mk 401 (inr "bad credentials") (inl (ResponseError "not JSON")))
  | Get r =>
      if decide (path r = "api/users/u1")
      then inr (Response.mk 200 (inr "") (inr (JData (logsPageOf threeLogs None))))
      else liftData (twoCatalogs r [])
  end.

Definition sampleNow (sent : list HttpRequest) : string := "2026-02-17T00:00:00Z".

Definition goodCredentials : Credentials := mkCredentials "me@example.com" "hunter2".
Definition badCredentials : Credentials := mkCredentials "me@example.com" "guess".

(** Sample inputs of the further examples. *)
Definition runCells : CellSet :=
  mkCellSet [mkCell "DISTANCE" (Some "5"); mkCell "DURATION" (Some "")] (Some true).

Definition twoSetsExercise : WorkoutExercise.t IntNumber :=
  WorkoutExercise.mk "Squat"
    [mkWorkoutSet (Some (Int 80)) (Some (Int 8)) None None None]
    [mkWorkoutSet (Some (Int 100)) (Some (Int 5)) None None None].

(** Dates of the sample range, as days. *)
Definition sampleNewDate (s : string) : Date :=
  match parseDecimal s with
  | Int z => Some z
  | NaN => None
  end.

Definition datedWorkout (id : string) (startDate : option string) : Workout.t IntNumber :=
  Workout.mk id None startDate None None [].

(** * Properties *)

Example transformLogs_basic :
  transformLogs (number := IntNumber)
    [sampleLog "log-1" "WORKOUT" None [squatGroup [set100x5 (Some true)]]] squatMap
  = [Workout.mk "log-1" None (Some "2026-01-01T10:00:00Z") (Some "2026-01-01T11:00:00Z") None
       [WorkoutExercise.mk "Squat (Barbell)"
          [mkWorkoutSet (Some (Int 100)) (Some (Int 5)) None None None] []]].
Proof. vm_compute. reflexivity. Qed.

Example transformLogs_unknown :
  (fun w => WorkoutExercise.name <$> Workout.exercises w) <$>
    transformLogs (number := IntNumber)
      [sampleLog "log-1" "WORKOUT" None [squatGroup [set100x5 (Some true)]]] ∅
  = [["Unknown"]].
Proof. vm_compute. reflexivity. Qed.

Example split_href : split slash "/api/measurements/abc123" = [""; "api"; "measurements"; "abc123"].
Proof. reflexivity. Qed.

(** ** Lists and options *)

Lemma elem_of_List_filter {A} (f : A -> bool) (l : list A) (x : A) :
  x ∈ List.filter f l ↔ x ∈ l ∧ f x = true.
Proof. rewrite !list_elem_of_In. apply filter_In. Qed.

Lemma find_first {A} (f : A -> bool) (l : list A) (c : A) :
  find f l = Some c →
  ∃ before after, l = (before ++ c :: after)%list ∧ f c = true ∧ ∀ x, x ∈ before → f x = false.
Proof.
  induction l as [|a l IH]; simpl; [discriminate|].
  destruct (f a) eqn:Ha.
  - intros [= ->]. exists [], l. split; [reflexivity|]. split; [assumption|].
    intros x Hx. inversion Hx.
  - intros Hfind. destruct (IH Hfind) as (before & after & -> & Hc & Hbefore).
    exists (a :: before), after. split; [reflexivity|]. split; [assumption|].
    intros x Hx. apply elem_of_cons in Hx as [->|Hx]; auto.
Qed.

Lemma find_none_elem {A} (f : A -> bool) (l : list A) :
  find f l = None → ∀ x, x ∈ l → f x = false.
Proof.
  intros Hfind x Hx. apply list_elem_of_In in Hx.
  exact (find_none f l Hfind x Hx).
Qed.

Lemma truthyString_Some v s : truthyString v = Some s ↔ v = Some s ∧ s ≠ "".
Proof.
  unfold truthyString. destruct v as [t|]; [|intuition congruence].
  destruct (decide (t = "")); intuition congruence.
Qed.

Lemma truthyString_None v : truthyString v = None ↔ v = None ∨ v = Some "".
Proof.
  unfold truthyString. destruct v as [t|]; [|intuition congruence].
  destruct (decide (t = "")); intuition congruence.
Qed.

(** ** The cell decoder *)

Lemma hasType_spec t c : hasType t c = true ↔ cellType c = t.
Proof. unfold hasType. apply bool_decide_eq_true. Qed.

Lemma isWeight_spec c : isWeight c = true ↔ isWeightType c.
Proof.
  unfold isWeight, isWeightType, WEIGHT_CELL_TYPES.
  rewrite bool_decide_eq_true, elem_of_list_to_set, !elem_of_cons, elem_of_nil.
  tauto.
Qed.

Lemma hasMarker_spec cellSet :
  bool_decide ("REST_TIMER" ∈ map cellType (cells cellSet))
  || bool_decide ("NOTE" ∈ map cellType (cells cellSet)) = true
  ↔ hasMarker cellSet.
Proof.
  unfold hasMarker.
  rewrite orb_true_iff, !bool_decide_eq_true.
  change (map cellType (cells cellSet)) with (cellType <$> cells cellSet).
  rewrite !list_elem_of_fmap. split.
  - intros [(c & Hc & Hin)|(c & Hc & Hin)]; exists c; auto.
  - intros (c & Hin & [Hc|Hc]); [left|right]; exists c; auto.
Qed.

(** What one field extraction of [parseSet] computes, against the words
    of the specification. *)
Lemma extract_parsedOrAbsent {number : Type} (parse : string -> number)
    (f : Cell -> bool) (P : Cell -> Prop) (cells : list Cell) :
  (∀ c, f c = true ↔ P c) →
  parsedOrAbsent parse P cells (parse <$> truthyString (find f cells ≫= value)).
Proof.
  intros HfP.
  assert (Hfalse : ∀ c, f c = false → ¬ P c).
  { intros c Hc HP. apply HfP in HP. congruence. }
  destruct (find f cells) as [c|] eqn:Hfind; simpl.
  - destruct (find_first _ _ _ Hfind) as (before & after & Hsplit & Hc & Hbefore).
    assert (Hfirst : firstMatching P cells c).
    { exists before, after. split; [assumption|]. split; [by apply HfP|]. auto. }
    destruct (truthyString (value c)) as [v|] eqn:Hv; simpl.
    + left. apply truthyString_Some in Hv as [Hv Hne]. by exists c, v.
    + right. split; [reflexivity|]. right. exists c. split; [assumption|].
      by apply truthyString_None.
  - right. split; [reflexivity|]. left.
    intros c Hc. apply Hfalse. by eapply find_none_elem.
Qed.

Section DecoderProperties.
Context {number : Type} `{JsNumber number}.

Lemma parseSet_marker (cellSet : CellSet) :
  hasMarker cellSet → parseSet (number := number) cellSet = None.
Proof.
  intros Hm. apply hasMarker_spec in Hm. unfold parseSet.
  by rewrite Hm.
Qed.

Lemma parseSet_no_marker (cellSet : CellSet) :
  ¬ hasMarker cellSet →
  ∃ set : WorkoutSet number, parseSet cellSet = Some (set, isCompleted cellSet)
    ∧ weightKg set = parseFloat <$> truthyString (find isWeight (cells cellSet) ≫= value)
    ∧ reps set = parseInt10 <$> truthyString (find (hasType "REPS") (cells cellSet) ≫= value)
    ∧ rpe set = parseFloat <$> truthyString (find (hasType "RPE") (cells cellSet) ≫= value)
    ∧ distance set
      = parseFloat <$> truthyString (find (hasType "DISTANCE") (cells cellSet) ≫= value).
Proof.
  intros Hm. unfold parseSet.
  destruct (bool_decide ("REST_TIMER" ∈ map cellType (cells cellSet))
            || bool_decide ("NOTE" ∈ map cellType (cells cellSet))) eqn:Hb.
  - exfalso. apply Hm. by apply hasMarker_spec.
  - eexists. split; [reflexivity|]. simpl. auto.
Qed.

(** C5. For every cell set without a rest-timer or note cell, decoding
    yields a set (it is a total function and cannot throw), and each of
    the numeric fields weightKg, reps, rpe and distance is either the
    number parsed (float for weight, rpe and distance, integer for
    reps) from the non-empty value of the first cell of a matching
    type, or absent; it is absent exactly when no cell matches or the
    first matching cell has no value or an empty one. *)
Theorem parseSet_total_fields (cellSet : CellSet) :
  ¬ hasMarker cellSet →
  ∃ (set : WorkoutSet number) (completed : option bool),
    parseSet cellSet = Some (set, completed)
    ∧ parsedOrAbsent parseFloat isWeightType (cells cellSet) (weightKg set)
    ∧ parsedOrAbsent parseInt10 (fun c => cellType c = "REPS") (cells cellSet) (reps set)
    ∧ parsedOrAbsent parseFloat (fun c => cellType c = "RPE") (cells cellSet) (rpe set)
    ∧ parsedOrAbsent parseFloat (fun c => cellType c = "DISTANCE") (cells cellSet)
        (distance set).
Proof.
  intros Hm.
  destruct (parseSet_no_marker cellSet Hm) as (set & Hset & Hw & Hr & Hp & Hd).
  exists set, (isCompleted cellSet). split; [assumption|].
  rewrite Hw, Hr, Hp, Hd.
  repeat split.
  - apply extract_parsedOrAbsent, isWeight_spec.
  - apply extract_parsedOrAbsent, hasType_spec.
  - apply extract_parsedOrAbsent, hasType_spec.
  - apply extract_parsedOrAbsent, hasType_spec.
Qed.

(** C6. A cell set that contains a rest-timer or a note cell decodes to
    no set, whatever its other cells; every other cell set decodes to a
    set together with the completed flag of the cell set, unchanged:
    true stays true, false stays false, absent stays absent. *)
Theorem parseSet_marker_or_verbatim (cellSet : CellSet) :
  (hasMarker cellSet → parseSet (number := number) cellSet = None)
  ∧ (¬ hasMarker cellSet →
     ∃ set : WorkoutSet number, parseSet cellSet = Some (set, isCompleted cellSet)).
Proof.
  split.
  - apply parseSet_marker.
  - intros Hm. destruct (parseSet_no_marker cellSet Hm) as (set & Hset & _).
    by exists set.
Qed.

End DecoderProperties.

(** ** The log transformer *)

Lemma isWorkoutLog_spec log : isWorkoutLog log = true ↔ keptType log.
Proof.
  unfold isWorkoutLog, keptType.
  by rewrite orb_true_iff, !bool_decide_eq_true.
Qed.

Section TransformerProperties.
Context {number : Type} `{JsNumber number}.

Lemma elem_of_transformLogs (logs : list RawLog.t) (m : gmap string string)
    (w : Workout.t number) :
  w ∈ transformLogs logs m ↔ ∃ log, log ∈ logs ∧ keptType log ∧ w = workoutOfLog m log.
Proof.
  unfold transformLogs. rewrite elem_of_reverse, list_elem_of_fmap.
  split.
  - intros (log & -> & Hlog). apply elem_of_List_filter in Hlog as [Hin Hk].
    exists log. split; [assumption|]. split; [by apply isWorkoutLog_spec|reflexivity].
  - intros (log & Hin & Hk & ->). exists log. split; [reflexivity|].
    apply elem_of_List_filter. split; [assumption|]. by apply isWorkoutLog_spec.
Qed.

Lemma List_filter_kept (logs : list RawLog.t) :
  List.filter isWorkoutLog logs = filter keptType logs.
Proof.
  induction logs as [|log logs IH]; [reflexivity|]. simpl.
  destruct (isWorkoutLog log) eqn:Hk.
  - rewrite filter_cons_True by (by apply isWorkoutLog_spec). by rewrite IH.
  - rewrite filter_cons_False; [assumption|].
    intros Hkept. apply isWorkoutLog_spec in Hkept. congruence.
Qed.

Lemma workoutOfLog_name (m : gmap string string) (log : RawLog.t) :
  Workout.name (workoutOfLog (number := number) m log)
  = match RawLog.name log with
    | Some n => match en n with Some p => Some p | None => custom n end
    | None => None
    end.
Proof.
  unfold workoutOfLog. simpl. destruct (RawLog.name log) as [n|]; [|reflexivity].
  simpl. destruct (en n); reflexivity.
Qed.

Lemma workoutOfLog_exercises (m : gmap string string) (log : RawLog.t) :
  Workout.exercises (workoutOfLog (number := number) m log)
  = List.filter hasSets (exerciseOfGroup m <$> groupsOf log).
Proof.
  unfold workoutOfLog, groupsOf. simpl.
  destruct (RawLog._embedded log) as [e|]; [|reflexivity].
  simpl. destruct (cellSetGroup e); reflexivity.
Qed.

(** C1, as amended. When a kept log carries a primary display name,
    the workout made from it has that primary name, whether or not a
    custom override is present; the custom override is used only when
    the primary name is absent; when both are absent, or the log has no
    name at all, the workout's name is absent. *)
Theorem workout_name_primary_first (logs : list RawLog.t) (m : gmap string string)
    (log : RawLog.t) :
  log ∈ logs → keptType log →
  workoutOfLog (number := number) m log ∈ transformLogs logs m
  ∧ (∀ n p, RawLog.name log = Some n → en n = Some p →
       Workout.name (workoutOfLog (number := number) m log) = Some p)
  ∧ (∀ n, RawLog.name log = Some n → en n = None →
       Workout.name (workoutOfLog (number := number) m log) = custom n)
  ∧ (RawLog.name log = None →
       Workout.name (workoutOfLog (number := number) m log) = None).
Proof.
  intros Hin Hk. split.
  - apply elem_of_transformLogs. by exists log.
  - rewrite workoutOfLog_name.
    repeat split.
    + intros n p -> ->. reflexivity.
    + intros n -> ->. reflexivity.
    + intros ->. reflexivity.
Qed.

(** C7. The output of the transformer is, in this order, the workouts
    made from the logs whose type tag is WORKOUT or LOG, taken in the
    reverse of their input order: a workout is in the output exactly
    when it is made from such a log, so a log with any other type tag
    never appears. *)
Theorem transformLogs_kept_reversed (logs : list RawLog.t) (m : gmap string string) :
  transformLogs (number := number) logs m
    = workoutOfLog m <$> reverse (filter keptType logs)
  ∧ Workout.id <$> transformLogs (number := number) logs m
    = reverse (RawLog.id <$> filter keptType logs)
  ∧ (∀ w : Workout.t number,
       w ∈ transformLogs logs m
       ↔ ∃ log, log ∈ logs ∧ keptType log ∧ w = workoutOfLog m log).
Proof.
  assert (Hrev : transformLogs (number := number) logs m
                 = workoutOfLog m <$> reverse (filter keptType logs)).
  { unfold transformLogs. by rewrite List_filter_kept, fmap_reverse. }
  split; [assumption|]. split.
  - rewrite Hrev, <- list_fmap_compose, fmap_reverse. reflexivity.
  - apply elem_of_transformLogs.
Qed.

End TransformerProperties.

Section ExerciseProperties.
Context {number : Type} `{JsNumber number}.

Lemma partition_computed (l : list CellSet) :
  SetsPartition (number := number) l
    (fst <$> List.filter notFalse (omap parseSet l))
    (fst <$> List.filter isFalse (omap parseSet l)).
Proof.
  induction l as [|cellSet l IH]; simpl; [constructor|].
  destruct (parseSet cellSet) as [[set flag]|] eqn:Hparse; simpl.
  - destruct flag as [[|]|]; unfold notFalse, isFalse; simpl.
    + eapply partition_completed; eauto.
    + eapply partition_skipped; eauto.
    + eapply partition_completed; eauto.
  - by apply partition_no_set.
Qed.

Lemma partition_functional (l : list CellSet) (completed skipped : list (WorkoutSet number)) :
  SetsPartition l completed skipped →
  completed = fst <$> List.filter notFalse (omap parseSet l)
  ∧ skipped = fst <$> List.filter isFalse (omap parseSet l).
Proof.
  induction 1 as [|cellSet rest completed skipped Hparse _ [-> ->]
                  |cellSet rest set flag completed skipped Hparse Hflag _ [-> ->]
                  |cellSet rest set completed skipped Hparse _ [-> ->]]; simpl.
  - by split.
  - by rewrite Hparse.
  - rewrite Hparse. simpl. unfold notFalse, isFalse. simpl.
    by destruct Hflag as [-> | ->].
  - rewrite Hparse. simpl. by unfold notFalse, isFalse.
Qed.

(** The two sequences that the callback computes for one group are the
    partition of the group's cell sets, and the only one. *)
Lemma exerciseOfGroup_partition (m : gmap string string) (group : CellSetGroup)
    (completed skipped : list (WorkoutSet number)) :
  SetsPartition (cellSets group) completed skipped
  ↔ completed = WorkoutExercise.completedSets (exerciseOfGroup m group)
    ∧ skipped = WorkoutExercise.skippedSets (exerciseOfGroup m group).
Proof.
  split.
  - apply partition_functional.
  - intros [-> ->]. apply partition_computed.
Qed.

Lemma hasSets_spec (e : WorkoutExercise.t number) :
  hasSets e = true
  ↔ 0 < length (WorkoutExercise.completedSets e) + length (WorkoutExercise.skippedSets e).
Proof. unfold hasSets. apply bool_decide_eq_true. Qed.

Lemma elem_of_workout_exercises (m : gmap string string) (log : RawLog.t)
    (e : WorkoutExercise.t number) :
  e ∈ Workout.exercises (workoutOfLog m log)
  ↔ (∃ group, group ∈ groupsOf log ∧ e = exerciseOfGroup m group)
    ∧ 0 < length (WorkoutExercise.completedSets e) + length (WorkoutExercise.skippedSets e).
Proof.
  rewrite workoutOfLog_exercises, elem_of_List_filter, list_elem_of_fmap, hasSets_spec.
  split; intros [(group & H1 & H2) Hlen]; (split; [exists group|]); auto.
Qed.

(** C8. Every exercise of every workout in the transformer's output
    comes from a cell-set group of the log the workout is made from, and
    its completed sets are exactly the decoded cell sets of that group
    whose flag is true or absent and its skipped sets exactly those
    whose flag is false, no-set results being discarded and each
    sequence keeping the order of the cell sets in the group.
    Conversely, for every group of a log whose type tag is WORKOUT or
    LOG, if that partition of the group's cell sets has at least one
    set, the workout of the log is in the output and has the exercise of
    the group, with these two sequences. *)
Theorem exercise_sets_partition (logs : list RawLog.t) (m : gmap string string) :
  (∀ (w : Workout.t number) e,
     w ∈ transformLogs logs m → e ∈ Workout.exercises w →
     ∃ log group,
       log ∈ logs ∧ keptType log ∧ w = workoutOfLog m log
       ∧ group ∈ groupsOf log ∧ e = exerciseOfGroup m group
       ∧ SetsPartition (cellSets group)
           (WorkoutExercise.completedSets e) (WorkoutExercise.skippedSets e)
       ∧ ∀ completed skipped,
           SetsPartition (cellSets group) completed skipped →
           completed = WorkoutExercise.completedSets e
           ∧ skipped = WorkoutExercise.skippedSets e)
  ∧ (∀ log group (completed skipped : list (WorkoutSet number)),
       log ∈ logs → keptType log → group ∈ groupsOf log →
       SetsPartition (cellSets group) completed skipped →
       0 < length completed + length skipped →
       ∃ (w : Workout.t number) e,
         w ∈ transformLogs logs m ∧ w = workoutOfLog m log
         ∧ e ∈ Workout.exercises w ∧ e = exerciseOfGroup m group
         ∧ WorkoutExercise.completedSets e = completed
         ∧ WorkoutExercise.skippedSets e = skipped).
Proof.
  split.
  - intros w e Hw He.
    apply elem_of_transformLogs in Hw as (log & Hin & Hk & ->).
    apply elem_of_workout_exercises in He as [(group & Hg & ->) _].
    exists log, group. repeat (split; [done|]). split.
    + apply partition_computed.
    + intros completed skipped. apply partition_functional.
  - intros log group completed skipped Hin Hk Hg Hpart Hlen.
    apply partition_functional in Hpart as [-> ->].
    exists (workoutOfLog m log), (exerciseOfGroup m group).
    split; [apply elem_of_transformLogs; by exists log|]. split; [reflexivity|].
    split; [|done].
    apply elem_of_workout_exercises. split; [by exists group|exact Hlen].
Qed.

(** C9. Every exercise of every workout in the transformer's output has
    at least one set, completed or skipped; the exercises of a workout
    are the exercises of the log's groups that have one, so an exercise
    whose two sequences are both empty is not in its workout. *)
Theorem exercises_have_sets (logs : list RawLog.t) (m : gmap string string) :
  (∀ (w : Workout.t number) e,
     w ∈ transformLogs logs m → e ∈ Workout.exercises w →
     0 < length (WorkoutExercise.completedSets e) + length (WorkoutExercise.skippedSets e))
  ∧ (∀ log group,
       WorkoutExercise.completedSets (exerciseOfGroup (number := number) m group) = [] →
       WorkoutExercise.skippedSets (exerciseOfGroup (number := number) m group) = [] →
       exerciseOfGroup m group ∉ Workout.exercises (workoutOfLog m log)).
Proof.
  split.
  - intros w e Hw He. apply elem_of_transformLogs in Hw as (log & _ & _ & ->).
    by apply elem_of_workout_exercises in He as [_ He].
  - intros log group Hc Hs Hin. apply elem_of_workout_exercises in Hin as [_ Hlen].
    rewrite Hc, Hs in Hlen. simpl in Hlen. lia.
Qed.

Lemma List_filter_nil {A} (f : A -> bool) (l : list A) :
  (∀ x, x ∈ l → f x = false) → List.filter f l = [].
Proof.
  induction l as [|a l IH]; intros Hall; [reflexivity|]. simpl.
  rewrite (Hall a) by apply list_elem_of_here.
  apply IH. intros x Hx. apply Hall. by apply list_elem_of_further.
Qed.

(** C10. The transformer emits one workout for each log whose type tag
    is WORKOUT or LOG, and does so even when the log has no cell-set
    group or every exercise of the log is dropped for having no set:
    the workout is then in the output with an empty sequence of
    exercises. *)
Theorem empty_workout_retained (logs : list RawLog.t) (m : gmap string string) :
  length (transformLogs (number := number) logs m) = length (filter keptType logs)
  ∧ (∀ log, log ∈ logs → keptType log →
       workoutOfLog (number := number) m log ∈ transformLogs logs m)
  ∧ (∀ log,
       log ∈ logs → keptType log →
       (∀ group, group ∈ groupsOf log →
          WorkoutExercise.completedSets (exerciseOfGroup (number := number) m group) = []
          ∧ WorkoutExercise.skippedSets (exerciseOfGroup (number := number) m group) = []) →
       ∃ w : Workout.t number,
         w ∈ transformLogs logs m
         ∧ Workout.id w = RawLog.id log ∧ Workout.exercises w = []).
Proof.
  split; [|split].
  - unfold transformLogs.
    by rewrite length_reverse, length_fmap, List_filter_kept.
  - intros log Hin Hk. apply elem_of_transformLogs. by exists log.
  - intros log Hin Hk Hempty. exists (workoutOfLog m log).
    split; [apply elem_of_transformLogs; by exists log|].
    split; [reflexivity|].
    rewrite workoutOfLog_exercises. apply List_filter_nil.
    intros e He. apply list_elem_of_fmap in He as (group & -> & Hg).
    destruct (Hempty group Hg) as [Hc Hs].
    unfold hasSets. rewrite Hc, Hs. reflexivity.
Qed.

End ExerciseProperties.

(** ** The CSV serializer *)

Lemma undouble_replaceQuotes (s : string) : undouble (replaceQuotes s) = s.
Proof.
  induction s as [|c s IH]; [reflexivity|]. simpl.
  destruct (decide (c = dquote)) as [->|Hc].
  - simpl. by rewrite IH.
  - cbn [undouble]. destruct (decide (c = dquote)); [done|]. by rewrite IH.
Qed.

Lemma replaceQuotes_plain (s : string) :
  containsChar dquote s = false → replaceQuotes s = s.
Proof.
  induction s as [|c s IH]; [reflexivity|]. simpl.
  intros [Hc Hs]%orb_false_iff. apply bool_decide_eq_false in Hc.
  destruct (decide (c = dquote)); [done|]. by rewrite IH.
Qed.

Section SerializerProperties.
Context {number : Type} `{JsNumber number}.

Lemma elem_of_csvLines (data : ExportData number) (line : string) :
  line ∈ csvLines data
  ↔ line = CSV_HEADER
    ∨ ∃ workout exercise i set status,
        workout ∈ workouts data
        ∧ exercise ∈ Workout.exercises workout
        ∧ allSets exercise !! i = Some (set, status)
        ∧ line = csvRow workout exercise i set status.
Proof.
  unfold csvLines. rewrite elem_of_cons, list_elem_of_bind.
  split.
  - intros [->|(workout & Hline & Hw)]; [by left|]. right.
    apply list_elem_of_bind in Hline as (exercise & Hline & He).
    apply elem_of_lookup_imap in Hline as (i & [set status] & -> & Hi).
    by exists workout, exercise, i, set, status.
  - intros [->|(workout & exercise & i & set & status & Hw & He & Hi & ->)]; [by left|].
    right. exists workout. split; [|assumption].
    apply list_elem_of_bind. exists exercise. split; [|assumption].
    unfold exerciseRows. apply elem_of_lookup_imap. by exists i, (set, status).
Qed.

(** C3, as amended. Every data line of the CSV output is the comma
    join of ten columns, of which the second is the workout name (the
    empty string when absent) and the third the exercise name, each
    always rendered between double quotes with its embedded double
    quotes doubled, whether or not the name contains a comma or a
    double quote. The doubling can be undone and leaves a name without
    double quotes unchanged. *)
Theorem names_always_quoted (data : ExportData number) (line : string) :
  line ∈ csvLines data → line ≠ CSV_HEADER →
  ∃ workout exercise date setNumber w r p d t status,
    workout ∈ workouts data
    ∧ exercise ∈ Workout.exercises workout
    ∧ line = join ","
               [ date;
                 DQ +:+ replaceQuotes (Workout.name workout ?? "") +:+ DQ;
                 DQ +:+ replaceQuotes (WorkoutExercise.name exercise) +:+ DQ;
                 setNumber; w; r; p; d; t; status ]
    ∧ undouble (replaceQuotes (Workout.name workout ?? "")) = Workout.name workout ?? ""
    ∧ undouble (replaceQuotes (WorkoutExercise.name exercise)) = WorkoutExercise.name exercise
    ∧ (containsChar dquote (WorkoutExercise.name exercise) = false →
       replaceQuotes (WorkoutExercise.name exercise) = WorkoutExercise.name exercise).
Proof.
  intros Hline Hne.
  apply elem_of_csvLines in Hline
    as [->|(workout & exercise & i & set & status & Hw & He & Hi & ->)]; [done|].
  exists workout, exercise. do 8 eexists.
  split; [assumption|]. split; [assumption|]. split; [reflexivity|].
  split; [apply undouble_replaceQuotes|]. split; [apply undouble_replaceQuotes|].
  apply replaceQuotes_plain.
Qed.

End SerializerProperties.

(** ** The paginated fetches *)

Section ClientProperties.
Context {World Json : Type}.
Variable execute : Request -> Eff World HttpClientError (Response.t Json).
Variable asMeasurementsPage : Json -> MeasurementsPage.t.
Variable asLogsPage : Json -> LogsPage.t.
Variable continuationOf : string -> option string.

Local Abbreviation loop := (fetchFromEndpointLoop execute asMeasurementsPage).
Local Abbreviation served := (pagesServed execute asMeasurementsPage).

Lemma bind_unfold {E A B} (m : Eff World E A) (k : A -> Eff World E B) (w : World) :
  (m ≫= k) w
  = match m w with
    | None => None
    | Some (inl e, w') => Some (inl e, w')
    | Some (inr a, w') => k a w'
    end.
Proof. reflexivity. Qed.

(** One iteration of the catalog loop on an unsuccessful answer. *)
Lemma loop_stops_on_status (fuel : nat) (token baseUrl : string) (page : nat)
    (map : gmap string string) (w w' : World) (response : Response.t Json) :
  execute (measurementsRequest token baseUrl page) w = Some (inr response, w') →
  Response.status response ≠ 200%Z →
  loop (S fuel) token baseUrl page map w = Some (inr map, w').
Proof.
  intros Hexec Hstatus. simpl. rewrite bind_unfold, Hexec.
  destruct (decide (Response.status response ≠ 200%Z)); [reflexivity|contradiction].
Qed.

(** One iteration of the catalog loop on a page that continues. *)
Lemma loop_continues (fuel : nat) (token baseUrl : string) (page : nat)
    (map : gmap string string) (w w' : World) (response : Response.t Json) (json : Json) :
  execute (measurementsRequest token baseUrl page) w = Some (inr response, w') →
  Response.status response = 200%Z →
  Response.json response = inr json →
  hasNext (asMeasurementsPage json) = true →
  pageMeasurements (asMeasurementsPage json) ≠ [] →
  loop (S fuel) token baseUrl page map w
  = loop fuel token baseUrl (page + 1)
      (setMeasurements map (pageMeasurements (asMeasurementsPage json))) w'.
Proof.
  intros Hexec Hstatus Hjson Hnext Hitems. simpl. rewrite bind_unfold, Hexec.
  destruct (decide (Response.status response ≠ 200%Z)); [contradiction|].
  rewrite bind_unfold. unfold fromEither. rewrite Hjson, Hnext. simpl.
  rewrite bool_decide_eq_false_2; [reflexivity|].
  intros Hlen. by apply nil_length_inv in Hlen.
Qed.

Lemma loop_served (token baseUrl : string) (n page : nat) (map map' : gmap string string)
    (w w' : World) (fuel : nat) :
  served token baseUrl n page map w map' w' →
  loop (n + fuel) token baseUrl page map w = loop fuel token baseUrl (page + n) map' w'.
Proof.
  induction 1 as [page map w|n page map w response json w1 map' w' Hexec Hst Hjson Hnext Hne _ IH].
  - by rewrite Nat.add_0_r.
  - change (S n + fuel) with (S (n + fuel)).
    rewrite (loop_continues _ _ _ _ _ _ _ _ _ Hexec Hst Hjson Hnext Hne), IH.
    f_equal. lia.
Qed.

Lemma fetchFromEndpoint_stopsAt (token baseUrl : string) (n : nat)
    (map map' : gmap string string) (w w' : World) (fuel : nat) :
  stopsAt execute asMeasurementsPage token baseUrl n map w map' w' → n < fuel →
  fetchFromEndpoint execute asMeasurementsPage fuel token baseUrl map w = Some (inr map', w').
Proof.
  intros (w1 & response & Hserved & Hexec & Hstatus) Hfuel.
  unfold fetchFromEndpoint.
  replace fuel with (n + S (fuel - S n)) by lia.
  rewrite (loop_served _ _ _ _ _ _ _ _ _ Hserved). simpl.
  by eapply loop_stops_on_status.
Qed.

(** C4, as amended. While the measurement lookup is built, a status
    other than 200 on any page of an endpoint, the very first page
    included, ends the pagination of that endpoint only: no error is
    raised and the map keeps the entries gathered so far. When the
    global catalog stops this way the user catalog is still fetched, on
    top of those entries; when the user catalog stops this way the
    lookup succeeds with the map as it stands. The lookup builder has
    no call whose first page is mandatory. *)
Theorem unsuccessful_page_ends_endpoint (token userId : string) :
  (∀ baseUrl n map w map' w' fuel,
     stopsAt execute asMeasurementsPage token baseUrl n map w map' w' → n < fuel →
     fetchFromEndpoint execute asMeasurementsPage fuel token baseUrl map w
     = Some (inr map', w'))
  ∧ (∀ n w map1 w1 fuel,
       stopsAt execute asMeasurementsPage token "api/measurements" n ∅ w map1 w1 →
       n < fuel →
       fetchMeasurements execute asMeasurementsPage fuel token userId w
       = catchAll
           (fetchFromEndpoint execute asMeasurementsPage fuel token
              ("api/users/" +:+ userId +:+ "/measurements") map1)
           measurementsFailure w1)
  ∧ (∀ w map1 w1 n map2 w2 fuel,
       fetchFromEndpoint execute asMeasurementsPage fuel token "api/measurements" ∅ w
       = Some (inr map1, w1) →
       stopsAt execute asMeasurementsPage token
         ("api/users/" +:+ userId +:+ "/measurements") n map1 w1 map2 w2 →
       n < fuel →
       fetchMeasurements execute asMeasurementsPage fuel token userId w
       = Some (inr map2, w2)).
Proof.
  split; [|split].
  - intros. by eapply fetchFromEndpoint_stopsAt.
  - intros n w map1 w1 fuel Hstop Hfuel.
    unfold fetchMeasurements, catchAll. rewrite bind_unfold.
    rewrite (fetchFromEndpoint_stopsAt _ _ _ _ _ _ _ _ Hstop Hfuel).
    rewrite bind_unfold.
    destruct (fetchFromEndpoint _ _ _ _ _ map1 w1) as [[[e|m] w2]|]; reflexivity.
  - intros w map1 w1 n map2 w2 fuel Hglobal Hstop Hfuel.
    unfold fetchMeasurements, catchAll. rewrite bind_unfold, Hglobal, bind_unfold.
    by rewrite (fetchFromEndpoint_stopsAt _ _ _ _ _ _ _ _ Hstop Hfuel).
Qed.

Local Abbreviation logsLoop := (fetchWorkoutLogsLoop execute asLogsPage continuationOf).

(** One iteration of the log loop on an unsuccessful answer whose body
    can be read: the error raised inside the loop has the status and
    the body text. *)
Lemma logsLoop_fails_on_status (fuel : nat) (token userId continuation : string)
    (logs : list RawLog.t) (w w' : World) (response : Response.t Json) (body : string) :
  execute (logsRequest token userId continuation) w = Some (inr response, w') →
  Response.status response ≠ 200%Z →
  Response.text response = inr body →
  logsLoop (S fuel) token userId continuation logs w
  = Some (inl (ThrownApi
                 (mkStrongApiError
                    ("Failed to fetch logs: " +:+ intToString (Response.status response)
                       +:+ " - " +:+ body)
                    (Some (Response.status response)) None)), w').
Proof.
  intros Hexec Hstatus Htext. simpl.
  rewrite bind_unfold. unfold widen at 1, catchAll. rewrite Hexec.
  destruct (decide (Response.status response ≠ 200%Z)); [|contradiction].
  rewrite bind_unfold. unfold widen, catchAll, fromEither. rewrite Htext.
  reflexivity.
Qed.

Lemma logsLoop_continues (fuel : nat) (token userId continuation : string)
    (logs : list RawLog.t) (w w' : World) (response : Response.t Json) (json : Json)
    (nextHref : string) :
  execute (logsRequest token userId continuation) w = Some (inr response, w') →
  Response.status response = 200%Z →
  Response.json response = inr json →
  truthyString (pageNextHref (asLogsPage json)) = Some nextHref →
  pageLogs (asLogsPage json) ≠ [] →
  continuationOf nextHref ?? "" ≠ "" →
  logsLoop (S fuel) token userId continuation logs w
  = logsLoop fuel token userId (continuationOf nextHref ?? "")
      (logs ++ pageLogs (asLogsPage json))%list w'.
Proof.
  intros Hexec Hstatus Hjson Hnext Hbatch Htoken. simpl.
  rewrite bind_unfold. unfold widen at 1, catchAll. rewrite Hexec.
  destruct (decide (Response.status response ≠ 200%Z)); [contradiction|].
  rewrite bind_unfold. unfold widen, catchAll, fromEither. rewrite Hjson, Hnext.
  rewrite bool_decide_eq_false_2 by (intros Hlen; by apply nil_length_inv in Hlen).
  destruct (decide (continuationOf nextHref ?? "" = "")); [contradiction|reflexivity].
Qed.

Lemma logsLoop_served (token userId : string) (n : nat) (continuation continuation' : string)
    (logs logs' : list RawLog.t) (w w' : World) (fuel : nat) :
  logPagesServed execute asLogsPage continuationOf token userId n continuation logs w
    continuation' logs' w' →
  logsLoop (n + fuel) token userId continuation logs w
  = logsLoop fuel token userId continuation' logs' w'.
Proof.
  induction 1 as [|n continuation logs w response json w1 nextHref continuation' logs' w'
                   Hexec Hst Hjson Hnext Hbatch Htoken _ IH]; [reflexivity|].
  change (S n + fuel) with (S (n + fuel)).
  by rewrite (logsLoop_continues _ _ _ _ _ _ _ _ _ _ Hexec Hst Hjson Hnext Hbatch Htoken).
Qed.

(** A run of the log fetch that reaches a page answered with a status
    other than 200: the fetch fails, with the error of [logsFailure];
    the error that has the status and the body text is its cause. *)
Lemma fetchWorkoutLogs_unsuccessful_page (token userId : string) (n : nat)
    (continuation : string) (logs : list RawLog.t) (w w1 w2 : World)
    (response : Response.t Json) (body : string) (fuel : nat) :
  logPagesServed execute asLogsPage continuationOf token userId n "" [] w continuation logs w1 →
  execute (logsRequest token userId continuation) w1 = Some (inr response, w2) →
  Response.status response ≠ 200%Z →
  Response.text response = inr body →
  n < fuel →
  fetchWorkoutLogs execute asLogsPage continuationOf fuel token userId w
  = Some (inl (mkStrongApiError "Failed to fetch workout logs" None
                 (Some (ThrownApi
                          (mkStrongApiError
                             ("Failed to fetch logs: "
                                +:+ intToString (Response.status response)
                                +:+ " - " +:+ body)
                             (Some (Response.status response)) None)))), w2).
Proof.
  intros Hserved Hexec Hstatus Htext Hfuel.
  unfold fetchWorkoutLogs, catchAll.
  replace fuel with (n + S (fuel - S n)) by lia.
  rewrite (logsLoop_served _ _ _ _ _ _ _ _ _ _ Hserved).
  by rewrite (logsLoop_fails_on_status _ _ _ _ _ _ _ _ _ Hexec Hstatus Htext).
Qed.

(** Whatever makes the log fetch fail, the error it fails with has no
    status and a fixed message; what was caught is kept as its cause. *)
Lemma fetchWorkoutLogs_failure (fuel : nat) (token userId : string) (w w' : World)
    (e : StrongApiError) :
  fetchWorkoutLogs execute asLogsPage continuationOf fuel token userId w = Some (inl e, w') →
  status e = None ∧ message e = "Failed to fetch workout logs"
  ∧ ∃ caught, cause e = Some caught
      ∧ logsLoop fuel token userId "" [] w = Some (inl caught, w').
Proof.
  unfold fetchWorkoutLogs, catchAll.
  destruct (logsLoop fuel token userId "" [] w) as [[[caught|logs] w1]|]; [|done..].
  intros [= <- <-]. simpl. eauto.
Qed.

End ClientProperties.

(** * Worked examples *)

Example transformLogs_three :
  Workout.id <$> transformLogs (number := IntNumber) threeLogs squatMap = ["log-3"; "log-1"].
Proof. vm_compute. reflexivity. Qed.

Example toCSV_pushDay : toCSV pushDay = CSV_HEADER +:+ newline +:+ pushDayRow.
Proof. vm_compute. reflexivity. Qed.

(** C1, as stated, fails: a kept log with the primary name Push Day and
    the custom override My Push Day becomes a workout named Push Day. *)
Lemma custom_name_does_not_win :
  namedLog ∈ [namedLog] ∧ keptType namedLog
  ∧ (RawLog.name namedLog ≫= en) = Some "Push Day"
  ∧ (RawLog.name namedLog ≫= custom) = Some "My Push Day"
  ∧ Workout.name <$> transformLogs (number := IntNumber) [namedLog] squatMap
    = [Some "Push Day"]
  ∧ Workout.name <$> transformLogs (number := IntNumber) [namedLog] squatMap
    ≠ [Some "My Push Day"].
Proof.
  split; [apply list_elem_of_here|]. split; [by left|].
  split; [reflexivity|]. split; [reflexivity|].
  split; [vm_compute; reflexivity|].
  vm_compute. discriminate.
Qed.

Lemma workout_name_primary_first_witness :
  namedLog ∈ [namedLog] ∧ keptType namedLog
  ∧ workoutOfLog (number := IntNumber) squatMap namedLog
    ∈ transformLogs [namedLog] squatMap
  ∧ Workout.name (workoutOfLog (number := IntNumber) squatMap namedLog) = Some "Push Day".
Proof.
  assert (Hin : namedLog ∈ [namedLog]) by apply list_elem_of_here.
  assert (Hk : keptType namedLog) by (left; reflexivity).
  destruct (workout_name_primary_first (number := IntNumber) [namedLog] squatMap namedLog Hin Hk)
    as (Hout & Hprimary & _).
  split; [exact Hin|]. split; [exact Hk|]. split; [exact Hout|].
  exact (Hprimary _ _ eq_refl eq_refl).
Defined.

Lemma parseSet_total_fields_witness :
  ¬ hasMarker mixedCells
  ∧ ∃ (set : WorkoutSet IntNumber) (completed : option bool),
      parseSet mixedCells = Some (set, completed)
      ∧ parsedOrAbsent parseFloat isWeightType (cells mixedCells) (weightKg set)
      ∧ parsedOrAbsent parseInt10 (fun c => cellType c = "REPS") (cells mixedCells) (reps set)
      ∧ parsedOrAbsent parseFloat (fun c => cellType c = "RPE") (cells mixedCells) (rpe set)
      ∧ parsedOrAbsent parseFloat (fun c => cellType c = "DISTANCE") (cells mixedCells)
          (distance set).
Proof.
  assert (Hm : ¬ hasMarker mixedCells).
  { intros Hm. apply hasMarker_spec in Hm. vm_compute in Hm. discriminate. }
  exact (conj Hm (parseSet_total_fields (number := IntNumber) mixedCells Hm)).
Defined.

Example parseSet_mixedCells :
  parseSet (number := IntNumber) mixedCells
  = Some (mkWorkoutSet (Some (Int 22)) None None None None, None).
Proof. vm_compute. reflexivity. Qed.

Lemma parseSet_marker_or_verbatim_witness :
  (hasMarker restTimerSet ∧ parseSet (number := IntNumber) restTimerSet = None)
  ∧ (¬ hasMarker (set100x5 (Some false))
     ∧ ∃ set : WorkoutSet IntNumber,
         parseSet (set100x5 (Some false)) = Some (set, isCompleted (set100x5 (Some false)))).
Proof.
  assert (Hyes : hasMarker restTimerSet).
  { apply hasMarker_spec. vm_compute. reflexivity. }
  assert (Hno : ¬ hasMarker (set100x5 (Some false))).
  { intros Hm. apply hasMarker_spec in Hm. vm_compute in Hm. discriminate. }
  split.
  - exact (conj Hyes (proj1 (parseSet_marker_or_verbatim (number := IntNumber) restTimerSet) Hyes)).
  - exact (conj Hno
             (proj2 (parseSet_marker_or_verbatim (number := IntNumber) (set100x5 (Some false)))
                Hno)).
Defined.

Lemma transformLogs_kept_reversed_witness :
  transformLogs (number := IntNumber) threeLogs squatMap
  = workoutOfLog squatMap <$> reverse (filter keptType threeLogs)
  ∧ Workout.id <$> transformLogs (number := IntNumber) threeLogs squatMap
    = reverse (RawLog.id <$> filter keptType threeLogs).
Proof.
  destruct (transformLogs_kept_reversed (number := IntNumber) threeLogs squatMap)
    as (Hout & Hids & _).
  exact (conj Hout Hids).
Defined.

Lemma exercise_sets_partition_witness :
  let w : Workout.t IntNumber := workoutOfLog squatMap mixedLog in
  let e : WorkoutExercise.t IntNumber := exerciseOfGroup squatMap mixedGroup in
  (mixedLog ∈ [restOnlyLog; mixedLog] ∧ keptType mixedLog ∧ mixedGroup ∈ groupsOf mixedLog
   ∧ SetsPartition (number := IntNumber) (cellSets mixedGroup)
       [set100x5Parsed; set100x5Parsed] [set100x5Parsed])
  ∧ (∃ (w' : Workout.t IntNumber) e',
       w' ∈ transformLogs [restOnlyLog; mixedLog] squatMap ∧ w' = workoutOfLog squatMap mixedLog
       ∧ e' ∈ Workout.exercises w' ∧ e' = exerciseOfGroup squatMap mixedGroup
       ∧ WorkoutExercise.completedSets e' = [set100x5Parsed; set100x5Parsed]
       ∧ WorkoutExercise.skippedSets e' = [set100x5Parsed])
  ∧ (w ∈ transformLogs [restOnlyLog; mixedLog] squatMap ∧ e ∈ Workout.exercises w
     ∧ ∃ log group,
         log ∈ [restOnlyLog; mixedLog] ∧ keptType log ∧ w = workoutOfLog squatMap log
         ∧ group ∈ groupsOf log ∧ e = exerciseOfGroup squatMap group
         ∧ SetsPartition (cellSets group)
             (WorkoutExercise.completedSets e) (WorkoutExercise.skippedSets e)
         ∧ ∀ completed skipped,
             SetsPartition (cellSets group) completed skipped →
             completed = WorkoutExercise.completedSets e
             ∧ skipped = WorkoutExercise.skippedSets e).
Proof.
  intros w e.
  destruct (exercise_sets_partition (number := IntNumber) [restOnlyLog; mixedLog] squatMap)
    as [Hfrom Hto].
  assert (Hin : mixedLog ∈ [restOnlyLog; mixedLog]).
  { apply list_elem_of_further, list_elem_of_here. }
  assert (Hk : keptType mixedLog) by (left; reflexivity).
  assert (Hg : mixedGroup ∈ groupsOf mixedLog) by apply list_elem_of_here.
  assert (Hpart : SetsPartition (number := IntNumber) (cellSets mixedGroup)
                    [set100x5Parsed; set100x5Parsed] [set100x5Parsed]).
  { eapply partition_completed; [vm_compute; reflexivity|by left|].
    eapply partition_no_set; [vm_compute; reflexivity|].
    eapply partition_skipped; [vm_compute; reflexivity|].
    eapply partition_completed; [vm_compute; reflexivity|by right|].
    apply partition_nil. }
  assert (Hw : w ∈ transformLogs [restOnlyLog; mixedLog] squatMap).
  { apply elem_of_transformLogs. by exists mixedLog. }
  assert (He : e ∈ Workout.exercises w).
  { vm_compute. apply list_elem_of_here. }
  split; [exact (conj Hin (conj Hk (conj Hg Hpart)))|].
  split.
  - exact (Hto mixedLog mixedGroup _ _ Hin Hk Hg Hpart (le_S _ _ (le_S _ _ (le_n 1)))).
  - exact (conj Hw (conj He (Hfrom w e Hw He))).
Defined.

Lemma exercises_have_sets_witness :
  let w : Workout.t IntNumber := workoutOfLog squatMap workoutLog in
  let e := exerciseOfGroup squatMap (squatGroup [set100x5 (Some true)]) in
  let dropped : WorkoutExercise.t IntNumber :=
    exerciseOfGroup squatMap (squatGroup [restTimerSet]) in
  (w ∈ transformLogs threeLogs squatMap ∧ e ∈ Workout.exercises w
   ∧ 0 < length (WorkoutExercise.completedSets e) + length (WorkoutExercise.skippedSets e))
  ∧ (WorkoutExercise.completedSets dropped = [] ∧ WorkoutExercise.skippedSets dropped = []
     ∧ dropped ∉ Workout.exercises (workoutOfLog squatMap restOnlyLog)).
Proof.
  intros w e dropped.
  destruct (exercises_have_sets (number := IntNumber) threeLogs squatMap) as [Hsets Hdrop].
  assert (Hw : w ∈ transformLogs threeLogs squatMap).
  { apply elem_of_transformLogs. exists workoutLog.
    split; [apply list_elem_of_here|]. split; [by left|reflexivity]. }
  assert (He : e ∈ Workout.exercises w).
  { vm_compute. apply list_elem_of_here. }
  split.
  - exact (conj Hw (conj He (Hsets w e Hw He))).
  - exact (conj eq_refl (conj eq_refl (Hdrop restOnlyLog (squatGroup [restTimerSet]) eq_refl eq_refl))).
Defined.

Lemma empty_workout_retained_witness :
  restOnlyLog ∈ threeLogs ∧ keptType restOnlyLog
  ∧ (∀ group, group ∈ groupsOf restOnlyLog →
       WorkoutExercise.completedSets (exerciseOfGroup (number := IntNumber) squatMap group) = []
       ∧ WorkoutExercise.skippedSets (exerciseOfGroup (number := IntNumber) squatMap group) = [])
  ∧ length (transformLogs (number := IntNumber) threeLogs squatMap)
    = length (filter keptType threeLogs)
  ∧ ∃ w : Workout.t IntNumber,
      w ∈ transformLogs threeLogs squatMap
      ∧ Workout.id w = RawLog.id restOnlyLog ∧ Workout.exercises w = [].
Proof.
  assert (Hin : restOnlyLog ∈ threeLogs).
  { apply list_elem_of_further, list_elem_of_further, list_elem_of_here. }
  assert (Hk : keptType restOnlyLog) by (right; reflexivity).
  assert (Hempty : ∀ group, group ∈ groupsOf restOnlyLog →
            WorkoutExercise.completedSets (exerciseOfGroup (number := IntNumber) squatMap group) = []
            ∧ WorkoutExercise.skippedSets (exerciseOfGroup (number := IntNumber) squatMap group) = []).
  { intros group Hg. apply list_elem_of_singleton in Hg as ->. split; reflexivity. }
  destruct (empty_workout_retained (number := IntNumber) threeLogs squatMap)
    as (Hlen & _ & Hkept).
  exact (conj Hin (conj Hk (conj Hempty (conj Hlen (Hkept restOnlyLog Hin Hk Hempty))))).
Defined.

(** C3, as stated, fails: the name Push Day has neither a comma nor a
    double quote, and the serializer renders it between double quotes,
    where the specification's words would leave it bare. *)
Lemma plain_name_is_quoted :
  containsChar comma "Push Day" || containsChar dquote "Push Day" = false
  ∧ specNameColumn "Push Day" = "Push Day"
  ∧ quoted "Push Day" = DQ +:+ "Push Day" +:+ DQ
  ∧ quoted "Push Day" ≠ specNameColumn "Push Day"
  ∧ csvLines pushDay = [CSV_HEADER; pushDayRow].
Proof.
  split; [reflexivity|]. split; [reflexivity|]. split; [reflexivity|].
  split; [vm_compute; discriminate|]. vm_compute. reflexivity.
Qed.

Lemma names_always_quoted_witness :
  pushDayRow ∈ csvLines pushDay ∧ pushDayRow ≠ CSV_HEADER
  ∧ ∃ workout exercise date setNumber w r p d t status,
      workout ∈ workouts pushDay
      ∧ exercise ∈ Workout.exercises workout
      ∧ pushDayRow
        = join ","
            [ date;
              DQ +:+ replaceQuotes (Workout.name workout ?? "") +:+ DQ;
              DQ +:+ replaceQuotes (WorkoutExercise.name exercise) +:+ DQ;
              setNumber; w; r; p; d; t; status ]
      ∧ undouble (replaceQuotes (Workout.name workout ?? "")) = Workout.name workout ?? ""
      ∧ undouble (replaceQuotes (WorkoutExercise.name exercise)) = WorkoutExercise.name exercise
      ∧ (containsChar dquote (WorkoutExercise.name exercise) = false →
         replaceQuotes (WorkoutExercise.name exercise) = WorkoutExercise.name exercise).
Proof.
  assert (Hin : pushDayRow ∈ csvLines pushDay).
  { vm_compute. apply list_elem_of_further, list_elem_of_here. }
  assert (Hne : pushDayRow ≠ CSV_HEADER).
  { vm_compute. discriminate. }
  exact (conj Hin (conj Hne (names_always_quoted pushDay pushDayRow Hin Hne))).
Defined.

(** C4, as stated, fails on its exception: with a backend that answers
    500 to everything, the very first page of each of the two catalog
    calls has an unsuccessful status, both calls are made, and the lookup
    succeeds with an empty map instead of failing. *)
Lemma first_page_failure_is_not_an_error :
  let globalPage0 := measurementsRequest "tok" "api/measurements" 0 in
  let userPage0 := measurementsRequest "tok" "api/users/u1/measurements" 0 in
  scripted alwaysDown globalPage0 [] = Some (inr (errorResponse 500 "boom"), [globalPage0])
  ∧ scripted alwaysDown userPage0 [globalPage0]
    = Some (inr (errorResponse 500 "boom"), [globalPage0; userPage0])
  ∧ Response.status (errorResponse 500 "boom") ≠ 200%Z
  ∧ fetchMeasurements (scripted alwaysDown) sampleAsMeasurementsPage 1 "tok" "u1" []
    = Some (inr ∅, [globalPage0; userPage0]).
Proof.
  split; [reflexivity|]. split; [reflexivity|]. split; [discriminate|].
  vm_compute. reflexivity.
Qed.

Lemma unsuccessful_page_ends_endpoint_witness :
  let globalUrl := "api/measurements" in
  let userUrl := "api/users/u1/measurements" in
  let gathered : gmap string string := {[ "abc123" := "Squat (Barbell)" ]} in
  let afterGlobal :=
    [measurementsRequest "tok" globalUrl 0; measurementsRequest "tok" globalUrl 1] in
  let afterUser := (afterGlobal ++ [measurementsRequest "tok" userUrl 0])%list in
  stopsAt (scripted flakyCatalogs) sampleAsMeasurementsPage "tok" globalUrl 1 ∅ []
    gathered afterGlobal
  ∧ stopsAt (scripted flakyCatalogs) sampleAsMeasurementsPage "tok" userUrl 0 gathered
      afterGlobal gathered afterUser
  ∧ fetchFromEndpoint (scripted flakyCatalogs) sampleAsMeasurementsPage 2 "tok" globalUrl ∅ []
    = Some (inr gathered, afterGlobal)
  ∧ fetchMeasurements (scripted flakyCatalogs) sampleAsMeasurementsPage 2 "tok" "u1" []
    = Some (inr gathered, afterUser).
Proof.
  intros globalUrl userUrl gathered afterGlobal afterUser.
  assert (Hglobal : stopsAt (scripted flakyCatalogs) sampleAsMeasurementsPage "tok" globalUrl
                      1 ∅ [] gathered afterGlobal).
  { exists [measurementsRequest "tok" globalUrl 0], (errorResponse 503 "busy").
    split; [|split; [reflexivity|discriminate]].
    eapply served_next; [reflexivity|reflexivity|reflexivity|reflexivity|discriminate|].
    apply served_none. }
  assert (Huser : stopsAt (scripted flakyCatalogs) sampleAsMeasurementsPage "tok" userUrl
                    0 gathered afterGlobal gathered afterUser).
  { exists afterGlobal, (errorResponse 404 "none").
    split; [apply served_none|]. split; [reflexivity|discriminate]. }
  destruct (unsuccessful_page_ends_endpoint (scripted flakyCatalogs) sampleAsMeasurementsPage
              "tok" "u1") as (Hendpoint & _ & Hlookup).
  assert (Hfirst := Hendpoint globalUrl 1 ∅ [] gathered afterGlobal 2 Hglobal (le_n 2)).
  split; [exact Hglobal|]. split; [exact Huser|]. split; [exact Hfirst|].
  exact (Hlookup [] gathered afterGlobal 0 gathered afterUser 2 Hfirst Huser
           (le_S 1 1 (le_n 1))).
Defined.

(** C2: the code evaluated where the claim fails. The first page of logs
    is served and the second one is answered 500 with the body boom: the
    loop raises an error that has the status 500 and the body text, and
    the fetch fails with another error, which has no status and a fixed
    message and keeps the first one only as its cause. *)
Theorem fetchWorkoutLogs_status_lost :
  let run :=
    fetchWorkoutLogs (scripted secondPageDown) sampleAsLogsPage sampleContinuationOf
      5 "tok" "u1" [] in
  let raised := mkStrongApiError "Failed to fetch logs: 500 - boom" (Some 500%Z) None in
  let surfaced :=
    mkStrongApiError "Failed to fetch workout logs" None (Some (ThrownApi raised)) in
  run = Some (inl surfaced, [logsRequest "tok" "u1" ""; logsRequest "tok" "u1" "tok2"])
  ∧ status surfaced = None
  ∧ message surfaced = "Failed to fetch workout logs".
Proof.
  split; [vm_compute; reflexivity|]. split; reflexivity.
Qed.

(** * Further properties *)

(** ** Strings *)

Lemma split_nonempty (sep : ascii) (s : string) : split sep s ≠ [].
Proof.
  induction s as [|c s IH]; simpl; [discriminate|].
  destruct (decide (c = sep)); [discriminate|].
  destruct (split sep s); [contradiction|discriminate].
Qed.

Lemma split_app_sep (sep : ascii) (p s : string) :
  split sep (p +:+ String sep s) = (split sep p ++ split sep s)%list.
Proof.
  induction p as [|c p IH]; simpl.
  - destruct (decide (sep = sep)); [reflexivity|contradiction].
  - destruct (decide (c = sep)); [by rewrite IH|].
    rewrite IH. pose proof (split_nonempty sep p) as Hne.
    destruct (split sep p); [contradiction|reflexivity].
Qed.

Lemma split_no_sep (sep : ascii) (s : string) :
  containsChar sep s = false → split sep s = [s].
Proof.
  induction s as [|c s IH]; simpl; [reflexivity|].
  intros [Hc Hs]%orb_false_iff. apply bool_decide_eq_false in Hc.
  destruct (decide (c = sep)); [contradiction|]. by rewrite IH.
Qed.

Lemma last_segment (sep : ascii) (p s : string) :
  containsChar sep s = false → pop (split sep (p +:+ String sep s)) = Some s.
Proof.
  intros Hs. unfold pop. rewrite split_app_sep, (split_no_sep _ _ Hs).
  apply last_snoc.
Qed.


Lemma append_assoc (a b c : string) : (a +:+ b) +:+ c = a +:+ (b +:+ c).
Proof.
  induction a as [|x a IH]; [reflexivity|].
  change (String x ((a +:+ b) +:+ c) = String x (a +:+ (b +:+ c))).
  by rewrite IH.
Qed.

(** ** More on the cell decoder and the transformer *)

Section TransformerMore.
Context {number : Type} `{JsNumber number}.

(** X1. The duration of a decoded set is the value of the first cell of
    type DURATION exactly as the cell carries it: absent when the value
    is absent, and the empty string when the value is empty (where a
    numeric field would be absent); it is absent when no cell has that
    type. *)
Theorem parseSet_duration_raw (cellSet : CellSet) (set : WorkoutSet number)
    (completed : option bool) :
  parseSet cellSet = Some (set, completed) →
  (∃ c, firstMatching (fun c => cellType c = "DURATION") (cells cellSet) c
        ∧ duration set = value c)
  ∨ ((∀ c, c ∈ cells cellSet → cellType c ≠ "DURATION") ∧ duration set = None).
Proof.
  unfold parseSet.
  destruct (bool_decide _ || bool_decide _); [discriminate|].
  intros [= <- _]. simpl.
  destruct (find (hasType "DURATION") (cells cellSet)) as [c|] eqn:Hfind; simpl.
  - left. exists c. split; [|reflexivity].
    destruct (find_first _ _ _ Hfind) as (before & after & Hsplit & Hc & Hbefore).
    exists before, after. split; [assumption|]. split; [by apply hasType_spec|].
    intros x Hx Htype. apply hasType_spec in Htype. rewrite (Hbefore x Hx) in Htype.
    discriminate.
  - right. split; [|reflexivity]. intros c Hc Htype.
    apply hasType_spec in Htype. rewrite (find_none_elem _ _ Hfind c Hc) in Htype.
    discriminate.
Qed.

(** X2. The exercise of a group is named after the last path segment of
    the group's measurement link: when the link is some prefix, a slash
    and an id without slash, the name is the entry of the map for that
    id, and the literal Unknown when the map has none. *)
Theorem exercise_name_from_last_segment (m : gmap string string) (group : CellSetGroup)
    (links : GroupLinks) (link : MeasurementLink) (prefix id : string) :
  _links group = Some links → measurement links = Some link →
  href link = Some (prefix +:+ String slash id) →
  containsChar slash id = false →
  WorkoutExercise.name (exerciseOfGroup (number := number) m group)
  = match m !! id with
    | Some name => name
    | None => "Unknown"
    end.
Proof.
  intros Hlinks Hlink Hhref Hid. unfold exerciseOfGroup. simpl.
  rewrite Hlinks. simpl. rewrite Hlink. simpl. rewrite Hhref. simpl.
  rewrite (last_segment _ _ _ Hid). simpl.
  destruct (m !! id); reflexivity.
Qed.

(** X3. Transforming a list of logs made of two parts gives the
    workouts of the second part followed by those of the first: the
    reversal applies to the whole list, so logs fetched in several
    batches come out newest batch first. *)
Theorem transformLogs_app (logs1 logs2 : list RawLog.t) (m : gmap string string) :
  transformLogs (number := number) (logs1 ++ logs2) m
  = (transformLogs logs2 m ++ transformLogs logs1 m)%list.
Proof.
  unfold transformLogs.
  by rewrite List.filter_app, fmap_app, reverse_app.
Qed.

End TransformerMore.

(** ** More on the CSV serializer *)

Lemma readQuotedBody_doubled (s rest : string) :
  afterField rest →
  readQuotedBody (replaceQuotes s +:+ DQ +:+ rest) = Some (s, rest).
Proof.
  intros Hrest. induction s as [|c s IH].
  - change (replaceQuotes "" +:+ DQ +:+ rest) with (String dquote rest).
    simpl. destruct rest as [|c' rest']; [reflexivity|].
    simpl in Hrest. destruct (decide (c' = dquote)); [contradiction|reflexivity].
  - simpl replaceQuotes. destruct (decide (c = dquote)) as [->|Hc].
    + change (String dquote (String dquote (replaceQuotes s)) +:+ DQ +:+ rest)
        with (String dquote (String dquote (replaceQuotes s +:+ DQ +:+ rest))).
      simpl. by rewrite IH.
    + change (String c (replaceQuotes s) +:+ DQ +:+ rest)
        with (String c (replaceQuotes s +:+ DQ +:+ rest)).
      simpl. destruct (decide (c = dquote)); [contradiction|]. by rewrite IH.
Qed.

Lemma readQuoted_quoted (s rest : string) :
  afterField rest → readQuoted (quoted s +:+ rest) = Some (s, rest).
Proof.
  intros Hrest. unfold quoted. rewrite !append_assoc.
  change (DQ +:+ replaceQuotes s +:+ DQ +:+ rest)
    with (String dquote (replaceQuotes s +:+ DQ +:+ rest)).
  simpl. by apply readQuotedBody_doubled.
Qed.


Lemma endsWith_app (a b : string) : endsWith (a +:+ b) b = true.
Proof.
  induction a as [|x a IH].
  - change ("" +:+ b) with b.
    destruct b; cbn [endsWith]; by rewrite bool_decide_eq_true_2.
  - change (String x a +:+ b) with (String x (a +:+ b)). cbn [endsWith].
    rewrite IH. apply orb_true_r.
Qed.

Section SerializerMore.
Context {number : Type} `{JsNumber number}.






End SerializerMore.

Section SerializerReadBack.
Context {number : Type} `{JsNumber number}.

(** X6. The two names can be read back from a row whatever characters
    they contain: after the date column, the row continues with the
    quoted workout name, from which a reader of quoted CSV fields
    recovers exactly the name (the empty string when absent) and stops
    at the comma before the quoted exercise name, which it recovers the
    same way. *)
Theorem names_read_back (workout : Workout.t number) (exercise : WorkoutExercise.t number)
    (i : nat) (set : WorkoutSet number) (status : string) :
  ∃ tail1 tail2,
    csvRow workout exercise i set status
    = (Workout.startDate workout ?? "") +:+ ","
        +:+ quoted (Workout.name workout ?? "") +:+ tail1
    ∧ tail1 = "," +:+ quoted (WorkoutExercise.name exercise) +:+ tail2
    ∧ readQuoted (quoted (Workout.name workout ?? "") +:+ tail1)
      = Some (Workout.name workout ?? "", tail1)
    ∧ readQuoted (quoted (WorkoutExercise.name exercise) +:+ tail2)
      = Some (WorkoutExercise.name exercise, tail2).
Proof.
  set (tail2 := "," +:+ join ","
                  [ natToString (i + 1); numberField (weightKg set);
                    numberField (reps set); numberField (rpe set);
                    numberField (distance set); duration set ?? ""; status ]).
  exists ("," +:+ quoted (WorkoutExercise.name exercise) +:+ tail2), tail2.
  split; [reflexivity|]. split; [reflexivity|].
  split; apply readQuoted_quoted; discriminate.
Qed.

End SerializerReadBack.

(** ** The date-range filter *)

Lemma List_filter_filter {A} (f g : A -> bool) (l : list A) :
  List.filter g (List.filter f l) = List.filter (fun x => f x && g x) l.
Proof.
  induction l as [|x l IH]; [reflexivity|]. simpl.
  destruct (f x); simpl; [|assumption].
  destruct (g x); by rewrite IH.
Qed.

Lemma List_filter_sublist {A} (f : A -> bool) (l : list A) : sublist (List.filter f l) l.
Proof.
  induction l as [|x l IH]; simpl; [constructor|].
  destruct (f x); by constructor.
Qed.

Section DateFilterProperties.
Context {number : Type}.
Variable newDate : string -> Date.

Lemma startsWithin_spec (from to : Date) (w : Workout.t number) :
  startsWithin newDate from to w = true
  ↔ ∃ s d f t,
      Workout.startDate w = Some s ∧ s ≠ "" ∧ newDate s = Some d
      ∧ from = Some f ∧ to = Some t ∧ (f ≤ d ≤ t)%Z.
Proof.
  unfold startsWithin. split.
  - destruct (truthyString (Workout.startDate w)) as [s|] eqn:Hs; [|discriminate].
    apply truthyString_Some in Hs as [Hs Hne].
    unfold dateGe, dateLe.
    destruct (newDate s) as [d|] eqn:Hd; [|discriminate].
    destruct from as [f|]; [|discriminate].
    destruct to as [t|]; [|intros [_ [=]]%andb_true_iff].
    intros [Hf Ht]%andb_true_iff. exists s, d, f, t.
    repeat split; auto; lia.
  - intros (s & d & f & t & Hs & Hne & Hd & -> & -> & Hf & Ht).
    rewrite (proj2 (truthyString_Some _ _) (conj Hs Hne)). simpl. rewrite Hd. simpl.
    apply andb_true_iff. split; lia.
Qed.

(** X7. The date-range filter keeps the workouts in their order and
    keeps exactly those that have a non-empty start date which parses to
    a valid date lying between two valid bounds, both included. So a
    workout whose start date is absent, empty or unparsable is never
    kept, and nothing is kept when a bound is an invalid date. *)
Theorem filterByDateRange_keeps (workouts : list (Workout.t number)) (from to : Date) :
  sublist (filterByDateRange newDate workouts from to) workouts
  ∧ ∀ w, w ∈ filterByDateRange newDate workouts from to
         ↔ w ∈ workouts
           ∧ ∃ s d f t,
               Workout.startDate w = Some s ∧ s ≠ "" ∧ newDate s = Some d
               ∧ from = Some f ∧ to = Some t ∧ (f ≤ d ≤ t)%Z.
Proof.
  split; [apply List_filter_sublist|].
  intros w. unfold filterByDateRange.
  by rewrite elem_of_List_filter, startsWithin_spec.
Qed.

(** X8. Filtering by one range and then by another is filtering once by
    their intersection, from the later of the two starts to the earlier
    of the two ends; in particular filtering twice by the same range
    changes nothing more. *)
Theorem filterByDateRange_twice (workouts : list (Workout.t number)) (f1 t1 f2 t2 : Z) :
  filterByDateRange newDate
    (filterByDateRange newDate workouts (Some f1) (Some t1)) (Some f2) (Some t2)
  = filterByDateRange newDate workouts (Some (Z.max f1 f2)) (Some (Z.min t1 t2)).
Proof.
  unfold filterByDateRange. rewrite List_filter_filter.
  apply List.filter_ext. intros w. unfold startsWithin.
  destruct (truthyString (Workout.startDate w)) as [s|]; [|reflexivity].
  simpl. destruct (newDate s) as [d|]; [|reflexivity]. simpl.
  apply eq_true_iff_eq. rewrite !andb_true_iff, !Z.leb_le. lia.
Qed.

End DateFilterProperties.

(** ** The export command *)

Lemma endsWith_spec (s suffix : string) :
  endsWith s suffix = true ↔ ∃ front, s = front +:+ suffix.
Proof.
  split.
  - induction s as [|c s IH]; cbn [endsWith]; rewrite orb_true_iff, bool_decide_eq_true.
    + intros [->|[=]]. by exists "".
    + intros [->|Hs]; [by exists ""|].
      destruct (IH Hs) as [front ->]. by exists (String c front).
  - intros [front ->]. apply endsWith_app.
Qed.

(** X9. The path an export is written to. A given path that already
    ends with a dot and the extension of the chosen format is used as it
    is; any other given path is used with a dot and the extension
    appended; without a given path, the file is strong-export-, the
    date, a dot and the extension, in the directory exports. So the path
    always ends with a dot and the extension, and resolving the
    resulting path again returns it unchanged: the extension is never
    doubled. *)
Theorem finalPath_has_extension (output : option string) (extension today : string) :
  (∀ value front, output = Some value → value = front +:+ "." +:+ extension →
     finalPath output extension today = value)
  ∧ (∀ value, output = Some value → (∀ front, value ≠ front +:+ "." +:+ extension) →
       finalPath output extension today = value +:+ "." +:+ extension)
  ∧ (output = None →
     finalPath output extension today
     = "exports" +:+ "/strong-export-" +:+ today +:+ "." +:+ extension)
  ∧ (∃ front, finalPath output extension today = front +:+ "." +:+ extension)
  ∧ endsWith (finalPath output extension today) ("." +:+ extension) = true
  ∧ finalPath (Some (finalPath output extension today)) extension today
    = finalPath output extension today.
Proof.
  assert (Hends : endsWith (finalPath output extension today) ("." +:+ extension) = true).
  { unfold finalPath. destruct output as [value|].
    - destruct (endsWith value ("." +:+ extension)) eqn:Hv; [assumption|].
      apply endsWith_app.
    - rewrite <- (append_assoc _ today ("." +:+ extension)).
      rewrite <- (append_assoc exportsDir _ ("." +:+ extension)).
      apply endsWith_app. }
  split; [|split; [|split; [|split; [|split]]]].
  - intros value front -> Hvalue. unfold finalPath.
    rewrite (proj2 (endsWith_spec value ("." +:+ extension))); [reflexivity|].
    by exists front.
  - intros value -> Hvalue. unfold finalPath.
    destruct (endsWith value ("." +:+ extension)) eqn:Hv; [|reflexivity].
    apply endsWith_spec in Hv as [front ->]. by destruct (Hvalue front).
  - intros ->. reflexivity.
  - by apply endsWith_spec.
  - assumption.
  - unfold finalPath at 1. by rewrite Hends.
Qed.

(** ** More on the measurement lookup *)

Lemma setMeasurement_insert (map : gmap string string) (m : MeasurementsPage.Measurement) :
  setMeasurement map m = <[MeasurementsPage.id m := measurementName m]> map.
Proof.
  unfold setMeasurement, measurementName.
  destruct (MeasurementsPage.name m) as [n|]; simpl; [|reflexivity].
  destruct (custom n); [reflexivity|]. by destruct (en n).
Qed.

Lemma setMeasurements_app (map : gmap string string)
    (l1 l2 : list MeasurementsPage.Measurement) :
  setMeasurements map (l1 ++ l2) = setMeasurements (setMeasurements map l1) l2.
Proof. unfold setMeasurements. apply foldl_app. Qed.

Lemma setMeasurements_other (map : gmap string string)
    (measurements : list MeasurementsPage.Measurement) (k : string) :
  (∀ x, x ∈ measurements → MeasurementsPage.id x ≠ k) →
  setMeasurements map measurements !! k = map !! k.
Proof.
  revert map. induction measurements as [|m ms IH]; intros map Hk; [reflexivity|].
  change (setMeasurements map (m :: ms)) with (setMeasurements (setMeasurement map m) ms).
  rewrite IH by (intros x Hx; apply Hk; by apply list_elem_of_further).
  rewrite setMeasurement_insert. apply lookup_insert_ne, Hk, list_elem_of_here.
Qed.

Lemma setMeasurements_keeps (map : gmap string string)
    (measurements : list MeasurementsPage.Measurement) (k : string) :
  is_Some (map !! k) → is_Some (setMeasurements map measurements !! k).
Proof.
  revert map. induction measurements as [|m ms IH]; intros map Hk; [assumption|].
  change (setMeasurements map (m :: ms)) with (setMeasurements (setMeasurement map m) ms).
  apply IH. rewrite setMeasurement_insert, lookup_insert.
  destruct (decide (MeasurementsPage.id m = k)); [by eexists|assumption].
Qed.

(** X10. Setting the measurements of a page stores each one under its
    id with its custom name, else its primary name, else its id; the
    last entry with a given id wins over earlier ones and over what the
    map held, and ids that do not occur on the page keep what the map
    held. *)
Theorem setMeasurements_last_wins (map : gmap string string)
    (before after : list MeasurementsPage.Measurement) (m : MeasurementsPage.Measurement) :
  (∀ x, x ∈ after → MeasurementsPage.id x ≠ MeasurementsPage.id m) →
  setMeasurements map (before ++ m :: after) !! MeasurementsPage.id m
  = Some (measurementName m)
  ∧ ∀ k, (∀ x, x ∈ (before ++ m :: after)%list → MeasurementsPage.id x ≠ k) →
         setMeasurements map (before ++ m :: after) !! k = map !! k.
Proof.
  intros Hafter. split; [|intros k Hk; by apply setMeasurements_other].
  rewrite setMeasurements_app.
  change (setMeasurements (setMeasurements map before) (m :: after))
    with (setMeasurements (setMeasurement (setMeasurements map before) m) after).
  rewrite (setMeasurements_other _ _ _ Hafter), setMeasurement_insert.
  apply lookup_insert_eq.
Qed.

Section LookupMore.
Context {World Json : Type}.
Variable execute : Request -> Eff World HttpClientError (Response.t Json).
Variable asMeasurementsPage : Json -> MeasurementsPage.t.

Local Abbreviation loop := (fetchFromEndpointLoop execute asMeasurementsPage).

Lemma loop_last_page (fuel : nat) (token baseUrl : string) (page : nat)
    (map : gmap string string) (w w' : World) (response : Response.t Json) (json : Json) :
  execute (measurementsRequest token baseUrl page) w = Some (inr response, w') →
  Response.status response = 200%Z →
  Response.json response = inr json →
  hasNext (asMeasurementsPage json) = false
  ∨ pageMeasurements (asMeasurementsPage json) = [] →
  loop (S fuel) token baseUrl page map w
  = Some (inr (setMeasurements map (pageMeasurements (asMeasurementsPage json))), w').
Proof.
  intros Hexec Hstatus Hjson Hlast. simpl. rewrite bind_unfold, Hexec.
  destruct (decide (Response.status response ≠ 200%Z)); [contradiction|].
  rewrite bind_unfold. unfold fromEither. rewrite Hjson.
  destruct Hlast as [Hnext|Hitems].
  - by rewrite Hnext.
  - rewrite Hitems. simpl. by rewrite orb_true_r.
Qed.

Lemma loop_fails (fuel : nat) (token baseUrl : string) (page : nat)
    (map : gmap string string) (w w' : World) (error : HttpClientError) :
  execute (measurementsRequest token baseUrl page) w = Some (inl error, w')
  ∨ (∃ response,
       execute (measurementsRequest token baseUrl page) w = Some (inr response, w')
       ∧ Response.status response = 200%Z ∧ Response.json response = inl error) →
  loop (S fuel) token baseUrl page map w = Some (inl error, w').
Proof.
  intros [Hexec|(response & Hexec & Hstatus & Hjson)]; simpl; rewrite bind_unfold, Hexec.
  - reflexivity.
  - destruct (decide (Response.status response ≠ 200%Z)); [contradiction|].
    rewrite bind_unfold. unfold fromEither. by rewrite Hjson.
Qed.

(** X11. The pagination of a catalog ends normally at the first page,
    answered 200, that has no next link or no measurement: the fetch
    succeeds, and the map holds what the earlier pages gave and then the
    measurements of that last page. *)
Theorem fetchFromEndpoint_last_page (token baseUrl : string) (n : nat)
    (map map1 : gmap string string) (w w1 w2 : World) (response : Response.t Json)
    (json : Json) (fuel : nat) :
  pagesServed execute asMeasurementsPage token baseUrl n 0 map w map1 w1 →
  execute (measurementsRequest token baseUrl n) w1 = Some (inr response, w2) →
  Response.status response = 200%Z →
  Response.json response = inr json →
  hasNext (asMeasurementsPage json) = false
  ∨ pageMeasurements (asMeasurementsPage json) = [] →
  n < fuel →
  fetchFromEndpoint execute asMeasurementsPage fuel token baseUrl map w
  = Some (inr (setMeasurements map1 (pageMeasurements (asMeasurementsPage json))), w2).
Proof.
  intros Hserved Hexec Hstatus Hjson Hlast Hfuel. unfold fetchFromEndpoint.
  replace fuel with (n + S (fuel - S n)) by lia.
  rewrite (loop_served _ _ _ _ _ _ _ _ _ _ _ Hserved).
  by eapply loop_last_page.
Qed.

Lemma loop_keeps_entries (fuel : nat) (token baseUrl : string) (page : nat)
    (map map' : gmap string string) (w w' : World) (k : string) :
  loop fuel token baseUrl page map w = Some (inr map', w') →
  is_Some (map !! k) → is_Some (map' !! k).
Proof.
  revert page map w. induction fuel as [|fuel IH]; intros page map w; [discriminate|].
  simpl. rewrite bind_unfold.
  destruct (execute (measurementsRequest token baseUrl page) w) as [[[e|response] w1]|];
    [discriminate| |discriminate].
  destruct (decide (Response.status response ≠ 200%Z)).
  - by intros [= <- <-].
  - rewrite bind_unfold. unfold fromEither.
    destruct (Response.json response) as [e|json]; [discriminate|].
    destruct (negb (hasNext (asMeasurementsPage json)) || _).
    + intros [= <- <-] Hk. by apply setMeasurements_keeps.
    + intros Hloop Hk. eapply IH; [exact Hloop|]. by apply setMeasurements_keeps.
Qed.

(** X12. Building the lookup never removes an entry: whenever the
    lookup succeeds, the global catalog had been fetched successfully
    and every id it gave is still a key of the resulting map, its name
    possibly replaced by the user catalog. *)
Theorem fetchMeasurements_keeps_global (fuel : nat) (token userId : string) (w w' : World)
    (map : gmap string string) :
  fetchMeasurements execute asMeasurementsPage fuel token userId w = Some (inr map, w') →
  ∃ global w1,
    fetchFromEndpoint execute asMeasurementsPage fuel token "api/measurements" ∅ w
    = Some (inr global, w1)
    ∧ fetchFromEndpoint execute asMeasurementsPage fuel token
        ("api/users/" +:+ userId +:+ "/measurements") global w1
      = Some (inr map, w')
    ∧ ∀ k, is_Some (global !! k) → is_Some (map !! k).
Proof.
  unfold fetchMeasurements, catchAll. rewrite bind_unfold.
  destruct (fetchFromEndpoint _ _ fuel token "api/measurements" ∅ w)
    as [[[e|global] w1]|]; [discriminate| |discriminate].
  rewrite bind_unfold.
  destruct (fetchFromEndpoint _ _ fuel token _ global w1)
    as [[[e|map'] w2]|] eqn:Huser; [discriminate| |discriminate].
  intros [= <- <-]. exists global, w1. split; [reflexivity|]. split; [exact Huser|].
  intros k. by eapply loop_keeps_entries.
Qed.

(** X13. A page of the global catalog that cannot be obtained (the
    request fails) or that is answered 200 with a body that does not
    decode makes the whole lookup fail, unlike a page answered with
    another status: the error says Failed to fetch measurements, has no
    status and has the client error as its cause, and the user catalog
    is not requested. *)
Theorem fetchMeasurements_fails_on_client_error (token userId : string) (n : nat)
    (map1 : gmap string string) (w w1 w2 : World) (error : HttpClientError) (fuel : nat) :
  pagesServed execute asMeasurementsPage token "api/measurements" n 0 ∅ w map1 w1 →
  execute (measurementsRequest token "api/measurements" n) w1 = Some (inl error, w2)
  ∨ (∃ response,
       execute (measurementsRequest token "api/measurements" n) w1
       = Some (inr response, w2)
       ∧ Response.status response = 200%Z ∧ Response.json response = inl error) →
  n < fuel →
  fetchMeasurements execute asMeasurementsPage fuel token userId w
  = Some (inl (mkStrongApiError "Failed to fetch measurements" None
                 (Some (ThrownHttp error))), w2).
Proof.
  intros Hserved Hfail Hfuel.
  assert (Hglobal : fetchFromEndpoint execute asMeasurementsPage fuel token
                      "api/measurements" ∅ w = Some (inl error, w2)).
  { unfold fetchFromEndpoint. replace fuel with (n + S (fuel - S n)) by lia.
    rewrite (loop_served _ _ _ _ _ _ _ _ _ _ _ Hserved).
    by apply loop_fails. }
  unfold fetchMeasurements, catchAll. by rewrite bind_unfold, Hglobal.
Qed.

End LookupMore.

(** ** More on the log fetch *)

Section LogFetchMore.
Context {World Json : Type}.
Variable execute : Request -> Eff World HttpClientError (Response.t Json).
Variable asLogsPage : Json -> LogsPage.t.
Variable continuationOf : string -> option string.

Local Abbreviation logsLoop := (fetchWorkoutLogsLoop execute asLogsPage continuationOf).

Lemma logsLoop_last_page (fuel : nat) (token userId continuation : string)
    (logs : list RawLog.t) (w w' : World) (response : Response.t Json) (json : Json) :
  execute (logsRequest token userId continuation) w = Some (inr response, w') →
  Response.status response = 200%Z →
  Response.json response = inr json →
  truthyString (pageNextHref (asLogsPage json)) = None
  ∨ pageLogs (asLogsPage json) = []
  ∨ (∃ nextHref, truthyString (pageNextHref (asLogsPage json)) = Some nextHref
                 ∧ continuationOf nextHref ?? "" = "") →
  logsLoop (S fuel) token userId continuation logs w
  = Some (inr (logs ++ pageLogs (asLogsPage json))%list, w').
Proof.
  intros Hexec Hstatus Hjson Hlast. simpl.
  rewrite bind_unfold. unfold widen at 1, catchAll. rewrite Hexec.
  destruct (decide (Response.status response ≠ 200%Z)); [contradiction|].
  rewrite bind_unfold. unfold widen, catchAll, fromEither. rewrite Hjson.
  destruct Hlast as [Hnone|[Hempty|(nextHref & Hnext & Htoken)]].
  - by rewrite Hnone.
  - rewrite Hempty. simpl.
    by destruct (truthyString (pageNextHref (asLogsPage json))).
  - rewrite Hnext.
    destruct (bool_decide (length (pageLogs (asLogsPage json)) = 0)); [reflexivity|].
    destruct (decide (continuationOf nextHref ?? "" = "")); [reflexivity|contradiction].
Qed.

(** X14. The log fetch ends normally at the first page, answered 200,
    that has no continuation link, or an empty batch, or a link whose
    continuation token is empty: the fetch succeeds with the logs of all
    the pages, that last one included, in the order they were served. *)
Theorem fetchWorkoutLogs_last_page (token userId : string) (n : nat)
    (continuation : string) (logs : list RawLog.t) (w w1 w2 : World)
    (response : Response.t Json) (json : Json) (fuel : nat) :
  logPagesServed execute asLogsPage continuationOf token userId n "" [] w continuation logs w1 →
  execute (logsRequest token userId continuation) w1 = Some (inr response, w2) →
  Response.status response = 200%Z →
  Response.json response = inr json →
  truthyString (pageNextHref (asLogsPage json)) = None
  ∨ pageLogs (asLogsPage json) = []
  ∨ (∃ nextHref, truthyString (pageNextHref (asLogsPage json)) = Some nextHref
                 ∧ continuationOf nextHref ?? "" = "") →
  n < fuel →
  fetchWorkoutLogs execute asLogsPage continuationOf fuel token userId w
  = Some (inr (logs ++ pageLogs (asLogsPage json))%list, w2).
Proof.
  intros Hserved Hexec Hstatus Hjson Hlast Hfuel.
  unfold fetchWorkoutLogs, catchAll.
  replace fuel with (n + S (fuel - S n)) by lia.
  rewrite (logsLoop_served _ _ _ _ _ _ _ _ _ _ _ _ _ Hserved).
  by rewrite (logsLoop_last_page _ _ _ _ _ _ _ _ _ Hexec Hstatus Hjson Hlast).
Qed.

End LogFetchMore.

(** ** Login and the export service *)

Section ServiceProperties.
Context {World Json number : Type} `{JsNumber number}.
Variable send : HttpRequest -> Eff World HttpClientError (Response.t Json).
Variable asLoginBody : Json -> LoginBody.
Variable asMeasurementsPage : Json -> MeasurementsPage.t.
Variable asLogsPage : Json -> LogsPage.t.
Variable continuationOf : string -> option string.
Variable now : World -> string.

Local Abbreviation login' := (login send asLoginBody).

(** X15. The login succeeds exactly when the answer has status 200 and
    a body that decodes and holds an access token, a refresh token and a
    user id that are all strings; the token it returns is made of these
    three strings. *)
Theorem login_success_iff (credentials : Credentials) (w w' : World) (token : AuthToken) :
  login' credentials w = Some (inr token, w')
  ↔ ∃ response json,
      send (PostLogin credentials) w = Some (inr response, w')
      ∧ Response.status response = 200%Z
      ∧ Response.json response = inr json
      ∧ bodyAccessToken (asLoginBody json) = Some (accessToken token)
      ∧ bodyRefreshToken (asLoginBody json) = Some (refreshToken token)
      ∧ bodyUserId (asLoginBody json) = Some (userId token).
Proof.
  unfold login, catchAll. rewrite bind_unfold. unfold widenAuth at 1, catchAll.
  split.
  - destruct (send (PostLogin credentials) w) as [[[e|response] w1]|];
      [discriminate| |discriminate].
    destruct (decide (Response.status response ≠ 200%Z)) as [|Hstatus].
    + rewrite bind_unfold. unfold widenAuth, catchAll, fromEither.
      destruct (Response.text response); discriminate.
    + rewrite bind_unfold. unfold widenAuth, catchAll, fromEither.
      destruct (Response.json response) as [e|json] eqn:Hjson; [discriminate|].
      destruct (bodyAccessToken (asLoginBody json)) as [a|] eqn:Ha; [|discriminate].
      destruct (bodyRefreshToken (asLoginBody json)) as [r|] eqn:Hr; [|discriminate].
      destruct (bodyUserId (asLoginBody json)) as [u|] eqn:Hu; [|discriminate].
      intros [= <- <-]. exists response, json.
      split; [reflexivity|]. split; [by apply dec_stable|]. by rewrite Ha, Hr, Hu.
  - intros (response & json & -> & Hstatus & Hjson & Ha & Hr & Hu).
    destruct (decide (Response.status response ≠ 200%Z)); [contradiction|].
    rewrite bind_unfold. unfold widenAuth, catchAll, fromEither.
    rewrite Hjson, Ha, Hr, Hu. by destruct token.
Qed.

(** X16. A login that fails does so in one of three ways. An answer
    with a status other than 200 and a readable body gives the message
    Authentication failed followed by the status and the body. An answer
    with status 200 whose body decodes but lacks one of the three
    strings gives the message Unexpected login response shape. A request
    that fails, or a body that cannot be read or decoded, gives the bare
    message Authentication failed with the client error as cause. *)
Theorem login_failure_kinds (credentials : Credentials) (w w' : World) (e : StrongAuthError) :
  login' credentials w = Some (inl e, w') →
  (∃ response body,
     send (PostLogin credentials) w = Some (inr response, w')
     ∧ Response.status response ≠ 200%Z ∧ Response.text response = inr body
     ∧ authMessage e
       = "Authentication failed: " +:+ intToString (Response.status response)
           +:+ " - " +:+ body)
  ∨ (∃ response json,
       send (PostLogin credentials) w = Some (inr response, w')
       ∧ Response.status response = 200%Z ∧ Response.json response = inr json
       ∧ (bodyAccessToken (asLoginBody json) = None
          ∨ bodyRefreshToken (asLoginBody json) = None
          ∨ bodyUserId (asLoginBody json) = None)
       ∧ authMessage e = "Unexpected login response shape")
  ∨ (∃ error,
       authMessage e = "Authentication failed"
       ∧ authCause e = Some (AuthThrownHttp error)
       ∧ (send (PostLogin credentials) w = Some (inl error, w')
          ∨ ∃ response,
              send (PostLogin credentials) w = Some (inr response, w')
              ∧ (Response.status response ≠ 200%Z ∧ Response.text response = inl error
                 ∨ Response.status response = 200%Z
                   ∧ Response.json response = inl error))).
Proof.
  unfold login, catchAll. rewrite bind_unfold. unfold widenAuth at 1, catchAll.
  destruct (send (PostLogin credentials) w) as [[[error|response] w1]|];
    [| |discriminate].
  - intros [= <- <-]. right. right. exists error. simpl. auto.
  - destruct (decide (Response.status response ≠ 200%Z)) as [Hstatus|Hstatus].
    + rewrite bind_unfold. unfold widenAuth, catchAll, fromEither.
      destruct (Response.text response) as [error|body] eqn:Htext.
      * intros [= <- <-]. right. right. exists error. simpl.
        split; [reflexivity|]. split; [reflexivity|]. right. exists response. auto.
      * intros [= <- <-]. left. exists response, body. simpl. auto.
    + apply dec_stable in Hstatus.
      rewrite bind_unfold. unfold widenAuth, catchAll, fromEither.
      destruct (Response.json response) as [error|json] eqn:Hjson.
      * intros [= <- <-]. right. right. exists error. simpl.
        split; [reflexivity|]. split; [reflexivity|]. right. exists response. auto.
      * destruct (bodyAccessToken (asLoginBody json)) as [a|] eqn:Ha;
          [destruct (bodyRefreshToken (asLoginBody json)) as [r|] eqn:Hr;
           [destruct (bodyUserId (asLoginBody json)) as [u|] eqn:Hu|]|];
          [discriminate|..];
          intros [= <- <-]; right; left; exists response, json; simpl; auto 10.
Qed.

Local Abbreviation export' :=
  (exportWorkouts (number := number) send asLoginBody asMeasurementsPage asLogsPage
     continuationOf now).

(** X17. An export that succeeds went through a successful login, then
    a successful measurement lookup and then a successful log fetch, both
    with the access token and user id of the login; its workouts are the
    transformation of the fetched logs with the fetched map, its workout
    count is their number and its timestamp is the time when the fetches
    are over. *)
Theorem exportWorkouts_success (fuel : nat) (credentials : Credentials) (w w' : World)
    (data : ExportData number) :
  export' fuel credentials w = Some (inr data, w') →
  ∃ token measurementMap logs w1 w2,
    login' credentials w = Some (inr token, w1)
    ∧ fetchMeasurements (fun r => send (Get r)) asMeasurementsPage fuel
        (accessToken token) (userId token) w1
      = Some (inr measurementMap, w2)
    ∧ fetchWorkoutLogs (fun r => send (Get r)) asLogsPage continuationOf fuel
        (accessToken token) (userId token) w2
      = Some (inr logs, w')
    ∧ workouts data = transformLogs logs measurementMap
    ∧ totalWorkouts data = length (workouts data)
    ∧ exportedAt data = now w'.
Proof.
  unfold exportWorkouts. rewrite bind_unfold. unfold catchAll at 1.
  destruct (login' credentials w) as [[[e|token] w1]|]; [discriminate| |discriminate].
  rewrite bind_unfold. unfold catchAll at 1.
  destruct (fetchMeasurements _ _ fuel (accessToken token) (userId token) w1)
    as [[[e|measurementMap] w2]|] eqn:Hmap; [discriminate| |discriminate].
  rewrite bind_unfold. unfold catchAll at 1.
  destruct (fetchWorkoutLogs _ _ _ fuel (accessToken token) (userId token) w2)
    as [[[e|logs] w3]|] eqn:Hlogs; [discriminate| |discriminate].
  rewrite bind_unfold. unfold currentTime. intros [= <- <-].
  exists token, measurementMap, logs, w1, w2. simpl. auto 10.
Qed.

(** X18. The export fails with an authentication error exactly when the
    login fails, with the error of the login, and then no catalog or log
    request has been made: the world is the one the login left. A
    failure of either fetch is reported as an API error instead. *)
Theorem exportWorkouts_auth_failure_iff (fuel : nat) (credentials : Credentials)
    (w w' : World) (e : StrongAuthError) :
  export' fuel credentials w = Some (inl (ExportAuthError e), w')
  ↔ login' credentials w = Some (inl e, w').
Proof.
  unfold exportWorkouts. rewrite bind_unfold. unfold catchAll at 1.
  destruct (login' credentials w) as [[[e'|token] w1]|]; [|split; [|discriminate]|done].
  - split; intros [= <- <-]; reflexivity.
  - rewrite bind_unfold. unfold catchAll at 1.
    destruct (fetchMeasurements _ _ fuel (accessToken token) (userId token) w1)
      as [[[e'|measurementMap] w2]|]; [discriminate| |discriminate].
    rewrite bind_unfold. unfold catchAll at 1.
    destruct (fetchWorkoutLogs _ _ _ fuel (accessToken token) (userId token) w2)
      as [[[e'|logs] w3]|]; [discriminate| |discriminate].
    rewrite bind_unfold. unfold currentTime. discriminate.
Qed.

End ServiceProperties.

(** ** The export command, composed *)

Section RestrictProperties.
Context {number : Type} `{JsNumber number}.
Variable newDate : string -> Date.

(** X19. Restricting an export to a date range keeps its workout count
    equal to the number of its workouts and never adds to the CSV: every
    line of the CSV of the restricted export is a line of the CSV of the
    whole export. *)
Theorem restrictTo_csv_lines (raw : ExportData number) (from to : Date) (line : string) :
  line ∈ csvLines (restrictTo newDate raw from to) →
  line ∈ csvLines raw
  ∧ totalWorkouts (restrictTo newDate raw from to)
    = length (workouts (restrictTo newDate raw from to)).
Proof.
  intros Hline. split; [|reflexivity].
  apply elem_of_csvLines in Hline
    as [->|(workout & exercise & i & set & status & Hw & He & Hi & ->)];
    apply elem_of_csvLines; [by left|].
  right. exists workout, exercise, i, set, status.
  split; [|done]. simpl in Hw. unfold filterByDateRange in Hw.
  by apply elem_of_List_filter in Hw as [Hw _].
Qed.

End RestrictProperties.

(** * Further worked examples *)

Lemma parseSet_duration_raw_witness :
  parseSet (number := IntNumber) runCells
  = Some (mkWorkoutSet None None None (Some (Int 5)) (Some ""), Some true)
  ∧ ((∃ c, firstMatching (fun c => cellType c = "DURATION") (cells runCells) c
           ∧ Some "" = value c)
     ∨ ((∀ c, c ∈ cells runCells → cellType c ≠ "DURATION") ∧ Some "" = None)).
Proof.
  assert (Hparse : parseSet (number := IntNumber) runCells
                   = Some (mkWorkoutSet None None None (Some (Int 5)) (Some ""), Some true)).
  { vm_compute. reflexivity. }
  exact (conj Hparse (parseSet_duration_raw runCells _ _ Hparse)).
Defined.

Lemma exercise_name_from_last_segment_witness :
  WorkoutExercise.name
    (exerciseOfGroup (number := IntNumber) squatMap (squatGroup [set100x5 (Some true)]))
  = match squatMap !! "abc123" with
    | Some name => name
    | None => "Unknown"
    end.
Proof.
  exact (exercise_name_from_last_segment (number := IntNumber) squatMap
           (squatGroup [set100x5 (Some true)])
           (mkGroupLinks (Some (mkMeasurementLink (Some "/api/measurements/abc123"))))
           (mkMeasurementLink (Some "/api/measurements/abc123"))
           "/api/measurements" "abc123" eq_refl eq_refl eq_refl eq_refl).
Defined.

Example exerciseRows_twoSets :
  exerciseRows (datedWorkout "w1" (Some "15")) twoSetsExercise
  = ["15," +:+ DQ +:+ DQ +:+ "," +:+ DQ +:+ "Squat" +:+ DQ +:+ ",1,80,8,,,,completed";
     "15," +:+ DQ +:+ DQ +:+ "," +:+ DQ +:+ "Squat" +:+ DQ +:+ ",2,100,5,,,,skipped"].
Proof. vm_compute. reflexivity. Qed.

Example filterByDateRange_sample :
  Workout.id <$>
    filterByDateRange sampleNewDate
      [datedWorkout "a" (Some "9"); datedWorkout "b" (Some "10"); datedWorkout "c" None;
       datedWorkout "d" (Some ""); datedWorkout "e" (Some "soon"); datedWorkout "f" (Some "20");
       datedWorkout "g" (Some "21")]
      (Some 10%Z) (Some 20%Z)
  = ["b"; "f"].
Proof. vm_compute. reflexivity. Qed.

Example finalPath_samples :
  finalPath (Some "my-workouts") "json" "2026-02-17" = "my-workouts.json"
  ∧ finalPath (Some "my-workouts.json") "json" "2026-02-17" = "my-workouts.json"
  ∧ finalPath (Some "my-workouts.json") "csv" "2026-02-17" = "my-workouts.json.csv"
  ∧ finalPath None "csv" "2026-02-17" = "exports/strong-export-2026-02-17.csv".
Proof. vm_compute. auto. Qed.

Lemma setMeasurements_last_wins_witness :
  let squat := MeasurementsPage.mkMeasurement "abc123"
                 (Some (mkLocalizedName (Some "Squat (Barbell)") None)) in
  let renamed := MeasurementsPage.mkMeasurement "abc123"
                   (Some (mkLocalizedName (Some "Squat (Barbell)") (Some "Back Squat"))) in
  let bench := MeasurementsPage.mkMeasurement "def456" None in
  (∀ x, x ∈ [bench] → MeasurementsPage.id x ≠ MeasurementsPage.id renamed)
  ∧ setMeasurements ∅ ([squat] ++ renamed :: [bench]) !! "abc123" = Some "Back Squat"
  ∧ setMeasurements ∅ ([squat] ++ renamed :: [bench]) !! "def456" = Some "def456".
Proof.
  intros squat renamed bench.
  assert (Hafter : ∀ x, x ∈ [bench] → MeasurementsPage.id x ≠ MeasurementsPage.id renamed).
  { intros x Hx. apply list_elem_of_singleton in Hx as ->. discriminate. }
  split; [exact Hafter|].
  split; [exact (proj1 (setMeasurements_last_wins ∅ [squat] [bench] renamed Hafter))|].
  reflexivity.
Defined.

Lemma fetchFromEndpoint_last_page_witness :
  let globalUrl := "api/measurements" in
  let page0 := measurementsRequest "tok" globalUrl 0 in
  let page1 := measurementsRequest "tok" globalUrl 1 in
  let gathered : gmap string string := {[ "abc123" := "Squat (Barbell)" ]} in
  let last := catalogPage [("def456", "Bench Press (Barbell)")] false in
  pagesServed (scripted twoCatalogs) sampleAsMeasurementsPage "tok" globalUrl 1 0 ∅ []
    gathered [page0]
  ∧ scripted twoCatalogs page1 [page0] = Some (inr (okResponse last), [page0; page1])
  ∧ fetchFromEndpoint (scripted twoCatalogs) sampleAsMeasurementsPage 2 "tok" globalUrl ∅ []
    = Some (inr (setMeasurements gathered (pageMeasurements (sampleAsMeasurementsPage last))),
            [page0; page1])
  ∧ setMeasurements gathered (pageMeasurements (sampleAsMeasurementsPage last)) !! "def456"
    = Some "Bench Press (Barbell)".
Proof.
  intros globalUrl page0 page1 gathered last.
  assert (Hserved : pagesServed (scripted twoCatalogs) sampleAsMeasurementsPage "tok"
                      globalUrl 1 0 ∅ [] gathered [page0]).
  { eapply served_next; [reflexivity|reflexivity|reflexivity|reflexivity|discriminate|].
    apply served_none. }
  assert (Hexec : scripted twoCatalogs page1 [page0]
                  = Some (inr (okResponse last), [page0; page1])) by reflexivity.
  split; [exact Hserved|]. split; [exact Hexec|].
  split; [|reflexivity].
  exact (fetchFromEndpoint_last_page (scripted twoCatalogs) sampleAsMeasurementsPage
           "tok" globalUrl 1 ∅ gathered [] [page0] [page0; page1] (okResponse last) last 2
           Hserved Hexec eq_refl eq_refl (or_introl eq_refl) (le_n 2)).
Defined.

Lemma fetchMeasurements_keeps_global_witness :
  ∃ map w',
    fetchMeasurements (scripted twoCatalogs) sampleAsMeasurementsPage 3 "tok" "u1" []
    = Some (inr map, w')
    ∧ map !! "abc123" = Some "Back Squat"
    ∧ ∃ global w1,
        fetchFromEndpoint (scripted twoCatalogs) sampleAsMeasurementsPage 3 "tok"
          "api/measurements" ∅ [] = Some (inr global, w1)
        ∧ fetchFromEndpoint (scripted twoCatalogs) sampleAsMeasurementsPage 3 "tok"
            ("api/users/" +:+ "u1" +:+ "/measurements") global w1 = Some (inr map, w')
        ∧ ∀ k, is_Some (global !! k) → is_Some (map !! k).
Proof.
  destruct (fetchMeasurements (scripted twoCatalogs) sampleAsMeasurementsPage 3 "tok" "u1" [])
    as [[[e|map] w']|] eqn:Hrun; [vm_compute in Hrun; discriminate| |vm_compute in Hrun; discriminate].
  exists map, w'. split; [reflexivity|]. split.
  - vm_compute in Hrun. injection Hrun as <- _. vm_compute. reflexivity.
  - exact (fetchMeasurements_keeps_global (scripted twoCatalogs) sampleAsMeasurementsPage
             3 "tok" "u1" [] w' map Hrun).
Defined.

Lemma fetchMeasurements_fails_on_client_error_witness :
  let page0 := measurementsRequest "tok" "api/measurements" 0 in
  let garbled := Response.mk 200 (inr "<html>") (inl (ResponseError "not JSON")) in
  scripted garbledCatalog page0 [] = Some (inr garbled, [page0])
  ∧ fetchMeasurements (scripted garbledCatalog) sampleAsMeasurementsPage 1 "tok" "u1" []
    = Some (inl (mkStrongApiError "Failed to fetch measurements" None
                   (Some (ThrownHttp (ResponseError "not JSON")))), [page0]).
Proof.
  intros page0 garbled.
  assert (Hexec : scripted garbledCatalog page0 [] = Some (inr garbled, [page0]))
    by reflexivity.
  split; [exact Hexec|].
  exact (fetchMeasurements_fails_on_client_error (scripted garbledCatalog)
           sampleAsMeasurementsPage "tok" "u1" 0 ∅ [] [] [page0] (ResponseError "not JSON") 1
           (served_none _ _ _ _ _ _ _)
           (or_intror (ex_intro _ garbled (conj Hexec (conj eq_refl eq_refl))))
           (le_n 1)).
Defined.

Lemma fetchWorkoutLogs_last_page_witness :
  let first := logsRequest "tok" "u1" "" in
  let second := logsRequest "tok" "u1" "tok2" in
  let log1 := sampleLog "log-1" "WORKOUT" None [] in
  let log2 := sampleLog "log-2" "LOG" None [] in
  logPagesServed (scripted twoLogPages) sampleAsLogsPage sampleContinuationOf "tok" "u1"
    1 "" [] [] "tok2" [log1] [first]
  ∧ fetchWorkoutLogs (scripted twoLogPages) sampleAsLogsPage sampleContinuationOf 2 "tok" "u1" []
    = Some (inr [log1; log2], [first; second]).
Proof.
  intros first second log1 log2.
  assert (Hserved : logPagesServed (scripted twoLogPages) sampleAsLogsPage sampleContinuationOf
                      "tok" "u1" 1 "" [] [] "tok2" [log1] [first]).
  { eapply (logs_served_next _ _ _ _ _ 0 "" [] []
              (okResponse (logsPageOf [log1] (Some "/api/users/u1?continuation=tok2")))
              (logsPageOf [log1] (Some "/api/users/u1?continuation=tok2"))
              [first] "/api/users/u1?continuation=tok2");
      [reflexivity|reflexivity|reflexivity|reflexivity|discriminate|discriminate|].
    apply logs_served_none. }
  split; [exact Hserved|].
  exact (fetchWorkoutLogs_last_page (scripted twoLogPages) sampleAsLogsPage sampleContinuationOf
           "tok" "u1" 1 "tok2" [log1] [] [first] [first; second]
           (okResponse (logsPageOf [log2] None)) (logsPageOf [log2] None) 2
           Hserved eq_refl eq_refl eq_refl (or_introl eq_refl) (le_n 2)).
Defined.

Example login_sample :
  login (scriptedService sampleService) serviceAsLoginBody goodCredentials []
  = Some (inr (mkAuthToken "acc" "ref" "u1"), [PostLogin goodCredentials]).
Proof. vm_compute. reflexivity. Qed.

Lemma login_failure_kinds_witness :
  let e := mkStrongAuthError "Authentication failed: 401 - bad credentials"
             (Some (AuthThrownAuth
                      (mkStrongAuthError "Authentication failed: 401 - bad credentials" None))) in
  login (scriptedService sampleService) serviceAsLoginBody badCredentials []
  = Some (inl e, [PostLogin badCredentials])
  ∧ ∃ response body,
      scriptedService sampleService (PostLogin badCredentials) []
      = Some (inr response, [PostLogin badCredentials])
      ∧ Response.status response ≠ 200%Z ∧ Response.text response = inr body
      ∧ authMessage e
        = "Authentication failed: " +:+ intToString (Response.status response)
            +:+ " - " +:+ body.
Proof.
  intros e.
  assert (Hrun : login (scriptedService sampleService) serviceAsLoginBody badCredentials []
                 = Some (inl e, [PostLogin badCredentials])).
  { vm_compute. reflexivity. }
  split; [exact Hrun|].
  destruct (login_failure_kinds (scriptedService sampleService) serviceAsLoginBody
              badCredentials [] _ e Hrun)
    as [Hstatus|[(response & json & Hsend & Hok & _)|(error & Hmessage & _)]].
  - exact Hstatus.
  - exfalso. vm_compute in Hsend. injection Hsend as <-. discriminate.
  - exfalso. vm_compute in Hmessage. discriminate.
Defined.

Lemma exportWorkouts_success_witness :
  ∃ data w',
    exportWorkouts (number := IntNumber) (scriptedService sampleService) serviceAsLoginBody
      serviceAsMeasurementsPage serviceAsLogsPage sampleContinuationOf sampleNow
      3 goodCredentials []
    = Some (inr data, w')
    ∧ Workout.id <$> workouts data = ["log-3"; "log-1"]
    ∧ ∃ token measurementMap logs w1 w2,
        login (scriptedService sampleService) serviceAsLoginBody goodCredentials []
        = Some (inr token, w1)
        ∧ fetchMeasurements (fun r => scriptedService sampleService (Get r))
            serviceAsMeasurementsPage 3 (accessToken token) (userId token) w1
          = Some (inr measurementMap, w2)
        ∧ fetchWorkoutLogs (fun r => scriptedService sampleService (Get r))
            serviceAsLogsPage sampleContinuationOf 3 (accessToken token) (userId token) w2
          = Some (inr logs, w')
        ∧ workouts data = transformLogs logs measurementMap
        ∧ totalWorkouts data = length (workouts data)
        ∧ exportedAt data = sampleNow w'.
Proof.
  destruct (exportWorkouts (number := IntNumber) (scriptedService sampleService)
              serviceAsLoginBody serviceAsMeasurementsPage serviceAsLogsPage
              sampleContinuationOf sampleNow 3 goodCredentials [])
    as [[[e|data] w']|] eqn:Hrun;
    [vm_compute in Hrun; discriminate| |vm_compute in Hrun; discriminate].
  exists data, w'. split; [reflexivity|]. split.
  - vm_compute in Hrun. injection Hrun as <- _. vm_compute. reflexivity.
  - exact (exportWorkouts_success (scriptedService sampleService) serviceAsLoginBody
             serviceAsMeasurementsPage serviceAsLogsPage sampleContinuationOf sampleNow
             3 goodCredentials [] w' data Hrun).
Defined.

Lemma restrictTo_csv_lines_witness :
  let kept := Workout.mk "w1" (Some "Push Day") (Some "15") None None [twoSetsExercise] in
  let raw := mkExportData "2026-02-17T00:00:00Z" 2 [kept; datedWorkout "w2" (Some "30")] in
  let line := csvRow kept twoSetsExercise 1
                (mkWorkoutSet (Some (Int 100)) (Some (Int 5)) None None None) "skipped" in
  line ∈ csvLines (restrictTo sampleNewDate raw (Some 10%Z) (Some 20%Z))
  ∧ line ∈ csvLines raw
  ∧ totalWorkouts (restrictTo sampleNewDate raw (Some 10%Z) (Some 20%Z)) = 1.
Proof.
  intros kept raw line.
  assert (Hline : line ∈ csvLines (restrictTo sampleNewDate raw (Some 10%Z) (Some 20%Z))).
  { vm_compute. apply list_elem_of_further, list_elem_of_further, list_elem_of_here. }
  destruct (restrictTo_csv_lines sampleNewDate raw (Some 10%Z) (Some 20%Z) line Hline)
    as [Hraw Hcount].
  exact (conj Hline (conj Hraw Hcount)).
Defined.


Example toCSV_newline_in_name :
  totalSets (workouts brokenName) = 1
  ∧ length (csvLines brokenName) = 2
  ∧ length (split "010"%char (toCSV brokenName)) = 3.
Proof. vm_compute. auto. Qed.

Lemma finalPath_has_extension_witness :
  finalPath (Some "my-workouts.json") "json" "2026-02-17" = "my-workouts.json"
  ∧ finalPath (Some "my-workouts") "json" "2026-02-17" = "my-workouts" +:+ "." +:+ "json"
  ∧ finalPath None "csv" "2026-02-17"
    = "exports" +:+ "/strong-export-" +:+ "2026-02-17" +:+ "." +:+ "csv".
Proof.
  split; [|split].
  - exact (proj1 (finalPath_has_extension (Some "my-workouts.json") "json" "2026-02-17")
             "my-workouts.json" "my-workouts" eq_refl eq_refl).
  - refine (proj1 (proj2 (finalPath_has_extension (Some "my-workouts") "json" "2026-02-17"))
              "my-workouts" eq_refl _).
    intros front Hfront.
    assert (Hends : endsWith "my-workouts" ("." +:+ "json") = true).
    { apply endsWith_spec. by exists front. }
    vm_compute in Hends. discriminate.
  - exact (proj1 (proj2 (proj2 (finalPath_has_extension None "csv" "2026-02-17"))) eq_refl).
Defined.
